(** * relay-mongodb-connection: cursor codec, offset window and connection builders

    A shallow embedding of [src/index.js] and the properties of its
    specification.

    Conventions of the embedding.
    - A JavaScript Number that holds an offset, a count or a page size is an
      integer, modelled as [Z]; [NaN], the only other Number the code
      inspects, is [None] in [option Z].  JavaScript agrees with [Z] on the
      safe integers (magnitude below 2^53): there its arithmetic and its
      comparisons are exact, and [String(n)] is the plain decimal numeral.
    - A JavaScript string is a [string] of 8-bit code units.
    - [undefined] is [None] for the cursor arguments; the page sizes [first]
      and [last] are compared with both [undefined] and [null] by the code and
      get a three-valued type.
    - The data source (driver cursor, query, aggregation) and the mapper are
      supplied by the caller: a builder is a program over their operations,
      run against any handler of these operations. *)

From Stdlib Require Import ZArith NArith String Ascii List Bool Lia.
From Stdlib Require Import DecimalString DecimalZ DecimalPos.
From stdpp Require Import base option list.
Import ListNotations.

Local Open Scope Z_scope.

(** ** Runtime primitives: Buffer, base64, parseInt, Number to string *)

Module Js.

(** [new Buffer(str, 'ascii')]: one byte per code unit. *)
Definition Buffer_from_ascii (str : string) : list N :=
  map N_of_ascii (list_ascii_of_string str).

(** [buf.toString('ascii')]: every byte with its high bit cleared. *)
Definition Buffer_toString_ascii (buf : list N) : string :=
  string_of_list_ascii (map (fun b => ascii_of_N (N.land b 127)) buf).

Definition base64_alphabet : string :=
  "ABCDEFGHIJKLMNOPQRSTUVWXYZabcdefghijklmnopqrstuvwxyz0123456789+/".

Definition base64_char (v : N) : ascii :=
  match String.get (N.to_nat v) base64_alphabet with
  | Some c => c
  | None => "="%char
  end.

(** The value of a base64 character; the reader also takes the URL-safe
    [-] and [_]. *)
Definition unbase64_char (c : ascii) : option N :=
  let n := N_of_ascii c in
  if (65 <=? n)%N && (n <=? 90)%N then Some (n - 65)%N
  else if (97 <=? n)%N && (n <=? 122)%N then Some (n - 71)%N
  else if (48 <=? n)%N && (n <=? 57)%N then Some (n + 4)%N
  else if (n =? 43)%N || (n =? 45)%N then Some 62%N
  else if (n =? 47)%N || (n =? 95)%N then Some 63%N
  else None.

(** [buf.toString('base64')]: three bytes give four characters, a last group
    of one or two bytes is padded with [=]. *)
Fixpoint Buffer_toString_base64 (buf : list N) : list ascii :=
  match buf with
  | [] => []
  | [a] =>
      [base64_char (N.shiftr a 2);
       base64_char (N.shiftl (N.land a 3) 4);
       "="%char; "="%char]
  | [a; b] =>
      [base64_char (N.shiftr a 2);
       base64_char (N.lor (N.shiftl (N.land a 3) 4) (N.shiftr b 4));
       base64_char (N.shiftl (N.land b 15) 2);
       "="%char]
  | a :: b :: c :: rest =>
      base64_char (N.shiftr a 2)
      :: base64_char (N.lor (N.shiftl (N.land a 3) 4) (N.shiftr b 4))
      :: base64_char (N.lor (N.shiftl (N.land b 15) 2) (N.shiftr c 6))
      :: base64_char (N.land c 63)
      :: Buffer_toString_base64 rest
  end.

(** The base64 reader is permissive: a character outside the alphabet is
    skipped, the first [=] ends the input, and nothing is ever raised. *)
Fixpoint base64_sextets (s : list ascii) : list N :=
  match s with
  | [] => []
  | c :: s' =>
      match unbase64_char c with
      | Some v => v :: base64_sextets s'
      | None => if Ascii.eqb c "=" then [] else base64_sextets s'
      end
  end.

Definition base64_byte1 (hi lo : N) : N :=
  N.lor (N.shiftl (N.land hi 63) 2) (N.shiftr (N.land lo 48) 4).
Definition base64_byte2 (hi lo : N) : N :=
  N.lor (N.shiftl (N.land hi 15) 4) (N.shiftr (N.land lo 60) 2).
Definition base64_byte3 (hi lo : N) : N :=
  N.lor (N.shiftl (N.land hi 3) 6) (N.land lo 63).

(** Four values give three bytes; an incomplete last group gives the bytes
    it determines. *)
Fixpoint base64_bytes (vs : list N) : list N :=
  match vs with
  | v1 :: v2 :: v3 :: v4 :: rest =>
      base64_byte1 v1 v2 :: base64_byte2 v2 v3 :: base64_byte3 v3 v4
      :: base64_bytes rest
  | [v1; v2; v3] => [base64_byte1 v1 v2; base64_byte2 v2 v3]
  | [v1; v2] => [base64_byte1 v1 v2]
  | _ => []
  end.

(** [new Buffer(b64, 'base64')]. *)
Definition Buffer_from_base64 (b64 : string) : list N :=
  base64_bytes (base64_sextets (list_ascii_of_string b64)).

(** White space that [parseInt] skips, among 8-bit code units: TAB, LF, VT,
    FF, CR, SP and NBSP. *)
Definition is_white_space (c : ascii) : bool :=
  let n := N_of_ascii c in
  ((9 <=? n)%N && (n <=? 13)%N) || (n =? 32)%N || (n =? 160)%N.

Definition digit_value (c : ascii) : option Z :=
  let n := N_of_ascii c in
  if (48 <=? n)%N && (n <=? 57)%N then Some (Z.of_N n - 48) else None.

Fixpoint trim_start (s : string) : string :=
  match s with
  | String c s' => if is_white_space c then trim_start s' else s
  | EmptyString => s
  end.

(** The value of the longest prefix of decimal digits, after [acc]. *)
Fixpoint parse_digits (acc : Z) (s : string) : Z :=
  match s with
  | String c s' =>
      match digit_value c with
      | Some d => parse_digits (10 * acc + d) s'
      | None => acc
      end
  | EmptyString => acc
  end.

(** [parseInt(string, 10)]: leading white space, an optional sign, then the
    longest run of decimal digits; [NaN] when that run is empty. *)
Definition parseInt (s : string) : option Z :=
  let s := trim_start s in
  let '(sign, s) :=
    match s with
    | String "-" s' => (-1, s')
    | String "+" s' => (1, s')
    | _ => (1, s)
    end in
  match s with
  | String c _ =>
      match digit_value c with
      | Some _ => Some (sign * parse_digits 0 s)
      | None => None
      end
  | EmptyString => None
  end.

(** [String(n)] for an integer [n], as in [PREFIX + offset]: its decimal
    numeral, with a leading [-] when negative. *)
Definition Number_toString (n : Z) : string :=
  NilZero.string_of_int (Z.to_int n).

(** [str.substring(start)]. *)
Fixpoint substring (start : nat) (str : string) : string :=
  match start, str with
  | O, _ => str
  | S n, String _ str' => substring n str'
  | S _, EmptyString => EmptyString
  end.

(** *** Notions used to state the properties *)

(** Strings of 7-bit characters. *)
Definition ascii7 (s : string) : Prop :=
  Forall (fun c => (N_of_ascii c < 128)%N) (list_ascii_of_string s).



(** The four values that [toString('base64')] writes for three bytes. *)
Definition sextet1 (a : N) : N := N.shiftr a 2.
Definition sextet2 (a b : N) : N := N.lor (N.shiftl (N.land a 3) 4) (N.shiftr b 4).
Definition sextet3 (b c : N) : N := N.lor (N.shiftl (N.land b 15) 2) (N.shiftr c 6).
Definition sextet4 (c : N) : N := N.land c 63.

Definition all_bytes : list N := map N.of_nat (seq 0 256).

Definition reads_back (v : N) : bool :=
  match unbase64_char (base64_char v) with
  | Some v' => N.eqb v' v
  | None => false
  end.

End Js.

(** ** The cursor codec *)

Definition PREFIX : string := "mongodbconnection:".

Definition base64 (str : string) : string :=
  string_of_list_ascii (Js.Buffer_toString_base64 (Js.Buffer_from_ascii str)).

Definition unbase64 (b64 : string) : string :=
  Js.Buffer_toString_ascii (Js.Buffer_from_base64 b64).

(** Rederives the offset from the cursor string. *)
Definition cursorToOffset (cursor : string) : option Z :=
  Js.parseInt (Js.substring (String.length PREFIX) (unbase64 cursor)).

(** Given an optional cursor and a default offset, returns the offset to
    use. *)
Definition getOffsetWithDefault (cursor : option string) (defaultOffset : Z) : Z :=
  match cursor with
  | None => defaultOffset
  | Some cursor =>
      let offset := cursorToOffset cursor in
      match offset with
      | None => defaultOffset
      | Some offset => offset
      end
  end.

(** Creates the cursor string from an offset. *)
Definition offsetToCursor (offset : Z) : string :=
  base64 (PREFIX ++ Js.Number_toString offset).

(** ** Connection arguments and results *)

(** A page size as the builders see it: absent, [null], or a number. *)
Inductive PageSize : Type :=
| Undefined
| Null
| Number (n : Z).

(** [x !== undefined] and [x !== null]. *)
Definition neq_undefined (x : PageSize) : bool :=
  match x with Undefined => false | _ => true end.
Definition neq_null (x : PageSize) : bool :=
  match x with Null => false | _ => true end.

(** The number a page size stands for in [startOffset + first] and
    [endOffset - last]; the builders use it only behind [!== undefined],
    and [null] counts as 0. *)
Definition ToNumber (x : PageSize) : Z :=
  match x with Number n => n | _ => 0 end.

(** [cursor ? _ : _]: a cursor is truthy when it is a non-empty string. *)
Definition truthy (cursor : option string) : bool :=
  match cursor with
  | Some (String _ _) => true
  | _ => false
  end.

Record ConnectionArgs : Type := {
  after : option string;
  before : option string;
  first : PageSize;
  last : PageSize;
}.

(** [args = {}] *)
Definition no_args : ConnectionArgs :=
  {| after := None; before := None; first := Undefined; last := Undefined |}.

(** The local constants of a builder once the count is known. *)
Record Window : Type := {
  beforeOffset : Z;
  afterOffset : Z;
  startOffset : Z;
  endOffset : Z;
  skip : Z;
  limit : Z;
  lowerBound : Z;
  upperBound : Z;
}.

(** Lines 42-57 and 77-78. *)
Definition MongoCursor_window (count : Z) (args : ConnectionArgs) : Window :=
  let '{| after := after; before := before; first := first; last := last |} := args in
  let beforeOffset := getOffsetWithDefault before count in
  let afterOffset := getOffsetWithDefault after (-1) in
  let startOffset := Z.max (-1) afterOffset + 1 in
  let endOffset := Z.min count beforeOffset in
  let endOffset :=
    if neq_undefined first then Z.min endOffset (startOffset + ToNumber first)
    else endOffset in
  let startOffset :=
    if neq_undefined last then Z.max startOffset (endOffset - ToNumber last)
    else startOffset in
  let skip := Z.max startOffset 0 in
  let limit := endOffset - startOffset in
  let lowerBound := if truthy after then afterOffset + 1 else 0 in
  let upperBound := if truthy before then Z.min beforeOffset count else count in
  {| beforeOffset := beforeOffset; afterOffset := afterOffset;
     startOffset := startOffset; endOffset := endOffset;
     skip := skip; limit := limit;
     lowerBound := lowerBound; upperBound := upperBound |}.

(** Lines 95-110 and 135-136. *)
Definition MongooseQuery_window (count : Z) (args : ConnectionArgs) : Window :=
  let '{| after := after; before := before; first := first; last := last |} := args in
  let beforeOffset := getOffsetWithDefault before count in
  let afterOffset := getOffsetWithDefault after (-1) in
  let startOffset := Z.max (-1) afterOffset + 1 in
  let endOffset := Z.min count beforeOffset in
  let endOffset :=
    if neq_undefined first then Z.min endOffset (startOffset + ToNumber first)
    else endOffset in
  let startOffset :=
    if neq_undefined last then Z.min startOffset (endOffset - ToNumber last)
    else startOffset in
  let skip := Z.max startOffset 0 in
  let limit := endOffset - startOffset in
  let lowerBound := if truthy after then afterOffset + 1 else 0 in
  let upperBound := if truthy before then Z.min beforeOffset count else count in
  {| beforeOffset := beforeOffset; afterOffset := afterOffset;
     startOffset := startOffset; endOffset := endOffset;
     skip := skip; limit := limit;
     lowerBound := lowerBound; upperBound := upperBound |}.

(** Lines 162-177 and 202-203. *)
Definition MongooseAggregate_window (count : Z) (args : ConnectionArgs) : Window :=
  let '{| after := after; before := before; first := first; last := last |} := args in
  let beforeOffset := getOffsetWithDefault before count in
  let afterOffset := getOffsetWithDefault after (-1) in
  let startOffset := Z.max (-1) afterOffset + 1 in
  let endOffset := Z.min count beforeOffset in
  let endOffset :=
    if neq_undefined first then Z.min endOffset (startOffset + ToNumber first)
    else endOffset in
  let startOffset :=
    if neq_undefined last then Z.min startOffset (endOffset - ToNumber last)
    else startOffset in
  let skip := Z.max startOffset 0 in
  let limit := endOffset - startOffset in
  let lowerBound := if truthy after then afterOffset + 1 else 0 in
  let upperBound := if truthy before then Z.min beforeOffset count else count in
  {| beforeOffset := beforeOffset; afterOffset := afterOffset;
     startOffset := startOffset; endOffset := endOffset;
     skip := skip; limit := limit;
     lowerBound := lowerBound; upperBound := upperBound |}.

(** The Offset Window Resolver as the specification words it (section 4.2,
    steps 1 to 9), to compare the builders with. *)
Module Spec.

Definition present {A} (x : option A) : bool :=
  match x with Some _ => true | None => false end.

Definition Resolver (totalCount : Z) (args : ConnectionArgs) : Window :=
  let beforeOffset := getOffsetWithDefault (before args) totalCount in
  let afterOffset := getOffsetWithDefault (after args) (-1) in
  let startOffset0 := Z.max (-1) afterOffset + 1 in
  let endOffset0 := Z.min totalCount beforeOffset in
  let endOffset :=
    match first args with
    | Undefined => endOffset0
    | first => Z.min endOffset0 (startOffset0 + ToNumber first)
    end in
  let startOffset :=
    match last args with
    | Undefined => startOffset0
    | last => Z.max startOffset0 (endOffset - ToNumber last)
    end in
  {| beforeOffset := beforeOffset; afterOffset := afterOffset;
     startOffset := startOffset; endOffset := endOffset;
     skip := Z.max startOffset 0;
     limit := Z.max (endOffset - startOffset) 0;
     lowerBound := if present (after args) then afterOffset + 1 else 0;
     upperBound :=
       if present (before args) then Z.min beforeOffset totalCount
       else totalCount |}.

End Spec.

(** ** Builders as programs over the caller's objects *)

(** A reference to a JavaScript object: a driver cursor, a query or an
    aggregation.  Two variables holding the same reference are aliases. *)
Definition ref : Type := nat.

Section Builders.

(** Raw records and nodes; function values such as the mapper. *)
Context {V F : Type}.

Record Edge : Type := {
  cursor : string;
  node : V;
}.

(** [null] cursors are [None]. *)
Record PageInfo : Type := {
  startCursor : option string;
  endCursor : option string;
  hasPreviousPage : bool;
  hasNextPage : bool;
}.

Record Connection : Type := {
  edges : list Edge;
  pageInfo : PageInfo;
}.

(** The operations a builder invokes on what the caller passed in, each with
    the type of its (awaited) result. *)
Inductive op : Type -> Type :=
| Clone (cur : ref) : op ref            (* cur.clone() *)
| Aggregate (aggr : ref) : op ref
    (* aggr._model.model(aggr._model.modelName).aggregate(aggr._pipeline) *)
| Count (src : ref) : op Z              (* await src.count() *)
| Group (aggr : ref) : op (list Z)
    (* await aggr.group({ _id: null, count: { $sum: 1 } }): the count field
       of every row *)
| Skip (src : ref) (n : Z) : op unit    (* src.skip(n) *)
| Limit (src : ref) (n : Z) : op unit   (* src.limit(n) *)
| ToArray (cur : ref) : op (list V)     (* await cur.toArray() *)
| Find (query : ref) : op (list V)      (* await query.find() *)
| Exec (aggr : ref) : op (list V)       (* await aggr.exec() *)
| Call (f : F) (value : V) (index : Z) (array : list V) : op V.
    (* f(value, index, array) *)

Inductive prog (A : Type) : Type :=
| Ret (a : A)
| Vis {X : Type} (o : op X) (k : X -> prog A).
Arguments Ret {A} a.
Arguments Vis {A X} o k.

Fixpoint bind {A B : Type} (p : prog A) (k : A -> prog B) : prog B :=
  match p with
  | Ret a => k a
  | Vis o h => Vis o (fun x => bind (h x) k)
  end.

Definition trigger {X : Type} (o : op X) : prog X := Vis o Ret.

Notation "x <- p ;; q" := (bind p (fun x => q))
  (at level 100, p at next level, right associativity, only parsing).
Notation "p ;;; q" := (bind p (fun _ => q))
  (at level 100, right associativity, only parsing).

(** [array.map(f)] for a caller-supplied [f]: one call per element, in index
    order, with the element, its index and the array. *)
Fixpoint Array_map_from (f : F) (array : list V) (index : nat) (l : list V)
  : prog (list V) :=
  match l with
  | [] => Ret []
  | value :: l' =>
      y <- trigger (Call f value (Z.of_nat index) array) ;;
      ys <- Array_map_from f array (S index) l' ;;
      Ret (y :: ys)
  end.

Definition Array_map (f : F) (array : list V) : prog (list V) :=
  Array_map_from f array 0 array.

(** [slice.map((value, index) => ({ cursor: ..., node: value }))] *)
Definition make_edges (startOffset : Z) (slice : list V) : list Edge :=
  imap (fun index value =>
          {| cursor := offsetToCursor (startOffset + Z.of_nat index);
             node := value |}) slice.

(** Lines 38-89.  [mapper] is [Some f] when [typeof mapper === 'function']. *)
Definition connectionFromMongoCursor
    (inMongoCursor : ref) (args : ConnectionArgs) (mapper : option F)
  : prog Connection :=
  mongodbCursor <- trigger (Clone inMongoCursor) ;;
  count <- trigger (Count mongodbCursor) ;;
  let w := MongoCursor_window count args in
  trigger (Skip mongodbCursor (skip w)) ;;;
  trigger (Limit mongodbCursor (limit w)) ;;;
  slice <- (if limit w =? 0 then Ret [] else trigger (ToArray mongodbCursor)) ;;
  slice <- match mapper with
           | Some f => Array_map f slice
           | None => Ret slice
           end ;;
  let edges := make_edges (startOffset w) slice in
  let firstEdge := head edges in
  let lastEdge := list.last edges in
  Ret {| edges := edges;
         pageInfo :=
           {| startCursor := cursor <$> firstEdge;
              endCursor := cursor <$> lastEdge;
              hasPreviousPage :=
                if neq_null (last args) then startOffset w >? lowerBound w
                else false;
              hasNextPage :=
                if neq_null (first args) then endOffset w <? upperBound w
                else false |} |}.

(** Lines 91-147.  The query is used as it is passed in. *)
Definition connectionFromMongooseQuery
    (query : ref) (args : ConnectionArgs) (mapper : option F)
  : prog Connection :=
  let mongooseQuery := query in
  count <- trigger (Count mongooseQuery) ;;
  let w := MongooseQuery_window count args in
  trigger (Skip mongooseQuery (skip w)) ;;;
  trigger (Limit mongooseQuery (limit w)) ;;;
  slice <- (if limit w =? 0 then Ret [] else trigger (Find mongooseQuery)) ;;
  slice <- match mapper with
           | Some f => Array_map f slice
           | None => Ret slice
           end ;;
  let edges := make_edges (startOffset w) slice in
  let firstEdge := head edges in
  let lastEdge := list.last edges in
  Ret {| edges := edges;
         pageInfo :=
           {| startCursor := cursor <$> firstEdge;
              endCursor := cursor <$> lastEdge;
              hasPreviousPage :=
                if neq_null (last args) then startOffset w >? lowerBound w
                else false;
              hasNextPage :=
                if neq_null (first args) then endOffset w <? upperBound w
                else false |} |}.

(** Lines 149-154. *)
Definition cloneAggregation (aggr : ref) : prog ref :=
  trigger (Aggregate aggr).

(** Lines 156-214. *)
Definition connectionFromMongooseAggregate
    (aggr : ref) (args : ConnectionArgs) (mapper : option F)
  : prog Connection :=
  mongooseAggr <- cloneAggregation aggr ;;
  countAggr <- cloneAggregation aggr ;;
  countArr <- trigger (Group countAggr) ;;
  let count :=
    match countArr with
    | c :: _ => if c =? 0 then 0 else c
    | [] => 0
    end in
  let w := MongooseAggregate_window count args in
  trigger (Skip mongooseAggr (skip w)) ;;;
  trigger (Limit mongooseAggr (limit w)) ;;;
  slice <- (if limit w =? 0 then Ret [] else trigger (Exec mongooseAggr)) ;;
  slice <- match mapper with
           | Some f => Array_map f slice
           | None => Ret slice
           end ;;
  let edges := make_edges (startOffset w) slice in
  let firstEdge := head edges in
  let lastEdge := list.last edges in
  Ret {| edges := edges;
         pageInfo :=
           {| startCursor := cursor <$> firstEdge;
              endCursor := cursor <$> lastEdge;
              hasPreviousPage :=
                if neq_null (last args) then startOffset w >? lowerBound w
                else false;
              hasNextPage :=
                if neq_null (first args) then endOffset w <? upperBound w
                else false |} |}.

(** *** Running a program *)

(** What was invoked, and what it answered. *)
Inductive event : Type :=
| Event {X : Type} (o : op X) (x : X).

(** The caller's side: how each operation answers in a world [W]. *)
Definition handler (W : Type) : Type := forall X : Type, op X -> W -> X * W.

Fixpoint run {W A : Type} (h : handler W) (p : prog A) (w : W)
  : A * W * list event :=
  match p with
  | Ret a => (a, w, [])
  | Vis o k =>
      let '(x, w1) := h _ o w in
      let '(a, w2, tr) := run h (k x) w1 in
      (a, w2, Event o x :: tr)
  end.

Definition is_fetch (e : event) : bool :=
  match e with
  | Event (ToArray _) _ | Event (Find _) _ | Event (Exec _) _ => true
  | _ => false
  end.

Definition is_call (e : event) : bool :=
  match e with
  | Event (Call _ _ _ _) _ => true
  | _ => false
  end.

(** The calls of [array.map(f)] on the elements [l] from index [i], with
    their answers [ys]. *)
Definition call_events (f : F) (array : list V) (i : nat) (l ys : list V)
  : list event :=
  imap (fun j vy => Event (Call f vy.1 (Z.of_nat (i + j)) array) vy.2) (zip l ys).

(** The object an operation is invoked on. *)
Definition receiver {X : Type} (o : op X) : option ref :=
  match o with
  | Count r | Group r | Skip r _ | Limit r _ | ToArray r | Find r | Exec r => Some r
  | Clone _ | Aggregate _ | Call _ _ _ _ => None
  end.

(** What [clone] and [aggregate] answer is not among the first [n]
    objects. *)
Definition is_new (n : nat) {X : Type} (o : op X) : X -> Prop :=
  match o in op X return X -> Prop with
  | Clone _ | Aggregate _ => fun r => (n <= r)%nat
  | _ => fun _ => True
  end.

(** A program that invokes methods only on objects it has made itself,
    when the caller's objects are the first [n]. *)
Inductive on_new_objects (n : nat) {A : Type} : prog A -> Prop :=
| on_new_Ret (a : A) : on_new_objects n (Ret a)
| on_new_Vis {X : Type} (o : op X) (k : X -> prog A) :
    (forall r, receiver o = Some r -> (n <= r)%nat) ->
    (forall x, is_new n o x -> on_new_objects n (k x)) ->
    on_new_objects n (Vis o k).

End Builders.

Arguments Edge : clear implicits.
Arguments Connection : clear implicits.
Arguments op : clear implicits.
Arguments prog : clear implicits.
Arguments event : clear implicits.
Arguments handler : clear implicits.
Arguments Ret {V F A} a.
Arguments Vis {V F A X} o k.

(** *** Objects in a heap *)

(** The caller's objects live in a heap, a list indexed by reference.  A
    method changes its receiver and nothing else; [clone] and [aggregate]
    allocate a new object.  What the methods do to an object is the
    driver's business. *)
Record Driver (V F O : Type) : Type := {
  drv_clone : O -> O;               (* the new object, from the receiver *)
  drv_count : O -> Z * O;
  drv_group : O -> list Z * O;
  drv_skip : Z -> O -> O;
  drv_limit : Z -> O -> O;
  drv_fetch : O -> list V * O;      (* toArray, find, exec *)
  drv_call : F -> V -> Z -> list V -> V;
}.
Arguments drv_clone {V F O}.
Arguments drv_count {V F O}.
Arguments drv_group {V F O}.
Arguments drv_skip {V F O}.
Arguments drv_limit {V F O}.
Arguments drv_fetch {V F O}.
Arguments drv_call {V F O}.

Section Heap.

Context {V F O : Type} (d : Driver V F O).

(** [new]: the fresh reference is the next index. *)
Definition alloc (o : O) (heap : list O) : ref * list O :=
  (length heap, heap ++ [o]).

(** A method call on the object at [r].  A reference that denotes no object
    does not arise in JavaScript; it answers [dflt] and changes nothing. *)
Definition method {X : Type} (r : ref) (m : O -> X * O) (dflt : X) (heap : list O)
  : X * list O :=
  match heap !! r with
  | Some o => let '(x, o') := m o in (x, <[r := o']> heap)
  | None => (dflt, heap)
  end.

Definition new_from (r : ref) (heap : list O) : ref * list O :=
  match heap !! r with
  | Some o => alloc (drv_clone d o) heap
  | None => (r, heap)
  end.

Definition heap_handler : handler V F (list O) :=
  fun X o =>
    match o in op _ _ X return list O -> X * list O with
    | Clone cur => new_from cur
    | Aggregate aggr => new_from aggr
    | Count src => method src (drv_count d) 0
    | Group aggr => method aggr (drv_group d) []
    | Skip src n => method src (fun o => (tt, drv_skip d n o)) tt
    | Limit src n => method src (fun o => (tt, drv_limit d n o)) tt
    | ToArray cur => method cur (drv_fetch d) []
    | Find query => method query (drv_fetch d) []
    | Exec aggr => method aggr (drv_fetch d) []
    | Call f value index array => fun heap => (drv_call d f value index array, heap)
    end.

End Heap.

(** *** An in-memory source, for examples *)

(** A source over a fixed list of items that remembers the skip and the
    limit it was given. *)
Record Source (V : Type) : Type := {
  items : list V;
  skipped : Z;
  limited : Z;
}.
Arguments items {V}.
Arguments skipped {V}.
Arguments limited {V}.

(** The count ignores skip and limit.  A limit of 0 does not limit at all
    (line 62); a negative limit is read as its absolute value. *)
Definition memory_driver {V : Type} : Driver V (V -> V) (Source V) := {|
  drv_clone := fun o => o;
  drv_count := fun o => (Z.of_nat (length (items o)), o);
  drv_group := fun o =>
    (match items o with [] => [] | _ => [Z.of_nat (length (items o))] end, o);
  drv_skip := fun n o => {| items := items o; skipped := n; limited := limited o |};
  drv_limit := fun n o => {| items := items o; skipped := skipped o; limited := n |};
  drv_fetch := fun o =>
    let rest := drop (Z.to_nat (skipped o)) (items o) in
    (if limited o =? 0 then rest else take (Z.to_nat (Z.abs (limited o))) rest, o);
  drv_call := fun f value _ _ => f value;
|}.

(** A collection of ten items, 100 to 109, untouched by skip or limit. *)
Definition ten_items : Source Z :=
  {| items := [100; 101; 102; 103; 104; 105; 106; 107; 108; 109];
     skipped := 0; limited := 0 |}.

Definition run_memory {A : Type} (p : prog Z (Z -> Z) A) (heap : list (Source Z))
  : A * list (Source Z) * list (event Z (Z -> Z)) :=
  run (heap_handler memory_driver) p heap.

(** The offsets and nodes of a connection. *)
Definition offsets_and_nodes (c : Connection Z) : list (option Z * Z) :=
  map (fun e => (cursorToOffset (cursor e), node e)) (edges c).

(** Arguments used in the examples. *)
Definition first_3 : ConnectionArgs :=
  {| after := None; before := None; first := Number 3; last := Undefined |}.

Definition first_2 : ConnectionArgs :=
  {| after := None; before := None; first := Number 2; last := Undefined |}.

Definition last_3 : ConnectionArgs :=
  {| after := None; before := None; first := Undefined; last := Number 3 |}.

Definition after_2_first_3 : ConnectionArgs :=
  {| after := Some (offsetToCursor 2); before := None;
     first := Number 3; last := Undefined |}.

Definition after_5_before_3 : ConnectionArgs :=
  {| after := Some (offsetToCursor 5); before := Some (offsetToCursor 3);
     first := Undefined; last := Undefined |}.

Definition after_minus_5 : ConnectionArgs :=
  {| after := Some (offsetToCursor (-5)); before := None;
     first := Undefined; last := Undefined |}.

(** A mapper. *)
Definition double (n : Z) : Z := 2 * n.

(** ** Notions used to state further properties *)

Section Results.

Context {V F : Type}.

(** The object a builder returns (lines 80-88, 138-146, 205-213), from the
    window and the nodes. *)
Definition make_connection (w : Window) (args : ConnectionArgs) (nodes : list V)
  : Connection V :=
  let edges := make_edges (startOffset w) nodes in
  {| edges := edges;
     pageInfo :=
       {| startCursor := cursor <$> head edges;
          endCursor := cursor <$> list.last edges;
          hasPreviousPage :=
            if neq_null (last args) then startOffset w >? lowerBound w else false;
          hasNextPage :=
            if neq_null (first args) then endOffset w <? upperBound w else false |} |}.

(** Line 161: the count of the first row, 0 without one. *)
Definition Aggregate_count (countArr : list Z) : Z :=
  match countArr with
  | c :: _ => if c =? 0 then 0 else c
  | [] => 0
  end.

(** The events of the fetch and of the mapper, the tail of every trace. *)
Definition fetch_and_map_events
    (fetch : event V F) (lim : Z) (mapper : option F) (slice nodes : list V)
  : list (event V F) :=
  (if lim =? 0 then [] else [fetch])
  ++ match mapper with
     | Some f => call_events f slice 0 slice nodes
     | None => []
     end.

End Results.

Section HeapResults.

Context {V F O : Type} (d : Driver V F O).

(** What a builder returns, in the heap semantics, when the object it
    counts, configures and fetches from is [o]. *)
Definition connection_from_object
    (window : Z -> ConnectionArgs -> Window)
    (o : O) (args : ConnectionArgs) (mapper : option F) : Connection V :=
  let count := (drv_count d o).1 in
  let w := window count args in
  let o' := drv_limit d (limit w) (drv_skip d (skip w) (drv_count d o).2) in
  let slice := if limit w =? 0 then [] else (drv_fetch d o').1 in
  let nodes :=
    match mapper with
    | Some f => imap (fun i v => drv_call d f v (Z.of_nat i) slice) slice
    | None => slice
    end in
  make_connection w args nodes.

End HeapResults.


(** * Properties *)

(** ** Examples *)

Example offsetToCursor_2 : offsetToCursor 2 = "bW9uZ29kYmNvbm5lY3Rpb246Mg=="%string.
Proof. reflexivity. Qed.

Example offsetToCursor_m5 : offsetToCursor (-5) = "bW9uZ29kYmNvbm5lY3Rpb246LTU="%string.
Proof. reflexivity. Qed.

Example cursorToOffset_2 : cursorToOffset "bW9uZ29kYmNvbm5lY3Rpb246Mg==" = Some 2.
Proof. reflexivity. Qed.

Example cursorToOffset_garbage : cursorToOffset "not a cursor" = None.
Proof. reflexivity. Qed.

Example ten_items_no_args :
  let c := (run_memory (connectionFromMongoCursor 0%nat no_args None) [ten_items]).1.1 in
  offsets_and_nodes c
  = [(Some 0, 100); (Some 1, 101); (Some 2, 102); (Some 3, 103); (Some 4, 104);
     (Some 5, 105); (Some 6, 106); (Some 7, 107); (Some 8, 108); (Some 9, 109)]
  /\ hasPreviousPage (pageInfo c) = false /\ hasNextPage (pageInfo c) = false.
Proof. vm_compute. auto. Qed.

Example ten_items_first_3 :
  let c := (run_memory (connectionFromMongoCursor 0%nat first_3 None) [ten_items]).1.1 in
  offsets_and_nodes c = [(Some 0, 100); (Some 1, 101); (Some 2, 102)]
  /\ hasPreviousPage (pageInfo c) = false /\ hasNextPage (pageInfo c) = true.
Proof. vm_compute. auto. Qed.

Example ten_items_after_2_first_3 :
  let c := (run_memory (connectionFromMongoCursor 0%nat after_2_first_3 None) [ten_items]).1.1 in
  offsets_and_nodes c = [(Some 3, 103); (Some 4, 104); (Some 5, 105)].
Proof. vm_compute. auto. Qed.

Example ten_items_last_3 :
  let c := (run_memory (connectionFromMongoCursor 0%nat last_3 None) [ten_items]).1.1 in
  offsets_and_nodes c = [(Some 7, 107); (Some 8, 108); (Some 9, 109)]
  /\ hasPreviousPage (pageInfo c) = true /\ hasNextPage (pageInfo c) = false.
Proof. vm_compute. auto. Qed.

Example no_items :
  let c := (run_memory (connectionFromMongoCursor 0%nat no_args None)
              [{| items := []; skipped := 0; limited := 0 |}]).1.1 in
  edges c = [] /\ startCursor (pageInfo c) = None /\ endCursor (pageInfo c) = None
  /\ hasPreviousPage (pageInfo c) = false /\ hasNextPage (pageInfo c) = false.
Proof. vm_compute. auto. Qed.

(** [first = 0]: the limit is 0 and nothing is fetched. *)
Example ten_items_first_0 :
  let args := {| after := None; before := None; first := Number 0; last := Undefined |} in
  let r := run_memory (connectionFromMongoCursor 0%nat args None) [ten_items] in
  edges r.1.1 = []
  /\ r.2 = [Event (Clone 0%nat) 1%nat; Event (Count 1%nat) 10;
            Event (Skip 1%nat 0) tt; Event (Limit 1%nat 0) tt].
Proof. vm_compute. auto. Qed.

(** Negative and foreign inputs of the codec. *)
Example cursorToOffset_minus_5 : cursorToOffset (offsetToCursor (-5)) = Some (-5).
Proof. reflexivity. Qed.

Example cursorToOffset_arrayconnection_512 :
  unbase64 "YXJyYXljb25uZWN0aW9uOjUxMg==" = "arrayconnection:512"%string
  /\ cursorToOffset "YXJyYXljb25uZWN0aW9uOjUxMg==" = Some 2.
Proof. split; reflexivity. Qed.

(** ** Bytes and base64 *)

Module JsFacts.
Import Js.

Lemma in_all_bytes (a : N) : (a < 256)%N -> In a all_bytes.
Proof.
  intros Ha. unfold all_bytes.
  rewrite <- (N2Nat.id a). apply in_map. apply in_seq. lia.
Qed.

Lemma for_all_bytes (P : N -> bool) :
  forallb P all_bytes = true -> forall a, (a < 256)%N -> P a = true.
Proof.
  intros H a Ha. rewrite forallb_forall in H. apply H, in_all_bytes, Ha.
Qed.

Lemma for_all_bytes2 (P : N -> N -> bool) :
  forallb (fun a => forallb (P a) all_bytes) all_bytes = true ->
  forall a b, (a < 256)%N -> (b < 256)%N -> P a b = true.
Proof.
  intros H a b Ha Hb.
  apply (for_all_bytes (P a)); [|exact Hb].
  apply (for_all_bytes (fun a => forallb (P a) all_bytes)); assumption.
Qed.

Lemma reads_back_spec v : reads_back v = true -> unbase64_char (base64_char v) = Some v.
Proof.
  unfold reads_back. destruct (unbase64_char (base64_char v)) as [v'|]; [|discriminate].
  intros H. apply N.eqb_eq in H. congruence.
Qed.

Lemma unbase64_sextet1 a : (a < 256)%N -> unbase64_char (base64_char (sextet1 a)) = Some (sextet1 a).
Proof.
  intros Ha. apply reads_back_spec.
  revert a Ha. apply for_all_bytes. vm_compute. reflexivity.
Qed.

Lemma unbase64_sextet2 a b :
  (a < 256)%N -> (b < 256)%N -> unbase64_char (base64_char (sextet2 a b)) = Some (sextet2 a b).
Proof.
  intros Ha Hb. apply reads_back_spec.
  revert a b Ha Hb. apply (for_all_bytes2 (fun a b => reads_back (sextet2 a b))).
  vm_compute. reflexivity.
Qed.

Lemma unbase64_sextet3 b c :
  (b < 256)%N -> (c < 256)%N -> unbase64_char (base64_char (sextet3 b c)) = Some (sextet3 b c).
Proof.
  intros Hb Hc. apply reads_back_spec.
  revert b c Hb Hc. apply (for_all_bytes2 (fun b c => reads_back (sextet3 b c))).
  vm_compute. reflexivity.
Qed.

Lemma unbase64_sextet4 c : (c < 256)%N -> unbase64_char (base64_char (sextet4 c)) = Some (sextet4 c).
Proof.
  intros Hc. apply reads_back_spec.
  revert c Hc. apply for_all_bytes. vm_compute. reflexivity.
Qed.

Lemma byte1_sextets a b : (a < 256)%N -> (b < 256)%N -> base64_byte1 (sextet1 a) (sextet2 a b) = a.
Proof.
  intros Ha Hb. apply N.eqb_eq.
  revert a b Ha Hb.
  apply (for_all_bytes2 (fun a b => N.eqb (base64_byte1 (sextet1 a) (sextet2 a b)) a)).
  vm_compute. reflexivity.
Qed.

Lemma sextet2_low a b : (a < 256)%N -> (b < 256)%N -> N.land (sextet2 a b) 15 = N.shiftr b 4.
Proof.
  intros Ha Hb. apply N.eqb_eq.
  revert a b Ha Hb.
  apply (for_all_bytes2 (fun a b => N.eqb (N.land (sextet2 a b) 15) (N.shiftr b 4))).
  vm_compute. reflexivity.
Qed.

Lemma byte2_sextets a b c :
  (a < 256)%N -> (b < 256)%N -> (c < 256)%N -> base64_byte2 (sextet2 a b) (sextet3 b c) = b.
Proof.
  intros Ha Hb Hc. unfold base64_byte2. rewrite sextet2_low by assumption.
  apply N.eqb_eq. revert b c Hb Hc.
  apply (for_all_bytes2
           (fun b c => N.eqb (N.lor (N.shiftl (N.shiftr b 4) 4)
                                   (N.shiftr (N.land (sextet3 b c) 60) 2)) b)).
  vm_compute. reflexivity.
Qed.

Lemma byte3_sextets b c : (b < 256)%N -> (c < 256)%N -> base64_byte3 (sextet3 b c) (sextet4 c) = c.
Proof.
  intros Hb Hc. apply N.eqb_eq.
  revert b c Hb Hc.
  apply (for_all_bytes2 (fun b c => N.eqb (base64_byte3 (sextet3 b c) (sextet4 c)) c)).
  vm_compute. reflexivity.
Qed.

Lemma sextet2_last a : N.shiftl (N.land a 3) 4 = sextet2 a 0.
Proof. unfold sextet2. simpl (N.shiftr 0 4). now rewrite N.lor_0_r. Qed.

Lemma sextet3_last b : N.shiftl (N.land b 15) 2 = sextet3 b 0.
Proof. unfold sextet3. simpl (N.shiftr 0 6). now rewrite N.lor_0_r. Qed.

(** Induction on a list three elements at a time. *)
Lemma list_ind3 {A : Type} (P : list A -> Prop) :
  P [] -> (forall a, P [a]) -> (forall a b, P [a; b]) ->
  (forall a b c l, P l -> P (a :: b :: c :: l)) ->
  forall l, P l.
Proof.
  intros H0 H1 H2 H3.
  fix IH 1. intros [|a [|b [|c l]]]; [exact H0 | apply H1 | apply H2 | apply H3, IH].
Qed.

(** Reading back what [toString('base64')] wrote. *)
Lemma base64_read_write (buf : list N) :
  Forall (fun b => (b < 256)%N) buf ->
  base64_bytes (base64_sextets (Buffer_toString_base64 buf)) = buf.
Proof.
  induction buf as [|a|a b|a b c rest IH] using list_ind3; intros Hbuf.
  - reflexivity.
  - inversion_clear Hbuf as [|? ? Ha _].
    cbn [Buffer_toString_base64 base64_sextets].
    rewrite sextet2_last. fold (sextet1 a).
    rewrite unbase64_sextet1, unbase64_sextet2 by (assumption || reflexivity).
    cbn. f_equal. now apply byte1_sextets.
  - inversion_clear Hbuf as [|? ? Ha Hbuf']. inversion_clear Hbuf' as [|? ? Hb _].
    cbn [Buffer_toString_base64 base64_sextets].
    rewrite sextet3_last. fold (sextet1 a) (sextet2 a b).
    rewrite unbase64_sextet1, unbase64_sextet2, unbase64_sextet3 by (assumption || reflexivity).
    cbn. f_equal; [now apply byte1_sextets|]. f_equal. now apply byte2_sextets.
  - inversion_clear Hbuf as [|? ? Ha Hbuf']. inversion_clear Hbuf' as [|? ? Hb Hbuf].
    inversion_clear Hbuf as [|? ? Hc Hrest].
    cbn [Buffer_toString_base64 base64_sextets].
    fold (sextet1 a) (sextet2 a b) (sextet3 b c) (sextet4 c).
    rewrite unbase64_sextet1, unbase64_sextet2, unbase64_sextet3, unbase64_sextet4 by assumption.
    cbn [base64_bytes].
    rewrite byte1_sextets, byte2_sextets, byte3_sextets, IH by assumption. reflexivity.
Qed.

Lemma ascii_of_N_land c : (N_of_ascii c < 128)%N -> ascii_of_N (N.land (N_of_ascii c) 127) = c.
Proof.
  destruct c as [[] [] [] [] [] [] [] []]; vm_compute; intros H; (reflexivity || discriminate).
Qed.

Lemma Buffer_ascii_read_write (s : string) :
  ascii7 s -> Buffer_toString_ascii (Buffer_from_ascii s) = s.
Proof.
  unfold ascii7, Buffer_toString_ascii, Buffer_from_ascii. intros Hs.
  rewrite <- (string_of_list_ascii_of_string s) at 2. f_equal.
  induction Hs as [|c l Hc _ IH]; [reflexivity|].
  cbn. rewrite ascii_of_N_land by assumption. f_equal. exact IH.
Qed.

Lemma Buffer_from_ascii_bytes (s : string) :
  Forall (fun b => (b < 256)%N) (Buffer_from_ascii s).
Proof.
  unfold Buffer_from_ascii.
  induction (list_ascii_of_string s) as [|c l IH]; cbn; constructor; [|exact IH].
  destruct c as [[] [] [] [] [] [] [] []]; vm_compute; reflexivity.
Qed.

End JsFacts.

(** [unbase64] undoes [base64] on 7-bit strings. *)
Lemma unbase64_base64 (s : string) : Js.ascii7 s -> unbase64 (base64 s) = s.
Proof.
  intros Hs. unfold unbase64, base64, Js.Buffer_from_base64.
  rewrite list_ascii_of_string_of_list_ascii.
  rewrite JsFacts.base64_read_write by apply JsFacts.Buffer_from_ascii_bytes.
  now apply JsFacts.Buffer_ascii_read_write.
Qed.

(** ** Decimal numerals and [parseInt] *)

Module NumeralFacts.
Import Js.

Ltac eval_digit :=
  match goal with
  | |- context [digit_value ?c] =>
      let v := eval vm_compute in (digit_value c) in
      change (digit_value c) with v; cbv iota beta
  end.

Lemma parse_digits_acc (u : Decimal.uint) (acc : positive) :
  parse_digits (Z.pos acc) (NilEmpty.string_of_uint u) = Z.pos (Pos.of_uint_acc u acc).
Proof.
  revert acc.
  induction u; intros acc; cbn [NilEmpty.string_of_uint parse_digits Pos.of_uint_acc];
    [reflexivity | rewrite <- IHu; eval_digit; f_equal; lia ..].
Qed.

Lemma parse_digits_uint (u : Decimal.uint) :
  parse_digits 0 (NilEmpty.string_of_uint u) = Z.of_N (Pos.of_uint u).
Proof.
  induction u; cbn [NilEmpty.string_of_uint parse_digits Pos.of_uint];
    [reflexivity | eval_digit; exact IHu | eval_digit; apply parse_digits_acc ..].
Qed.

(** A numeral starts with a digit. *)
Lemma uint_string_head (u : Decimal.uint) :
  u <> Decimal.Nil ->
  exists c s d, NilEmpty.string_of_uint u = String c s /\ digit_value c = Some d.
Proof.
  destruct u; [congruence | intros _; cbn [NilEmpty.string_of_uint]; eauto ..].
Qed.

Lemma parseInt_digit c s d :
  digit_value c = Some d -> parseInt (String c s) = Some (parse_digits 0 (String c s)).
Proof.
  intros Hd. unfold parseInt. cbn [trim_start].
  assert (Hw : is_white_space c = false /\ c <> "-"%char /\ c <> "+"%char).
  { destruct c as [[] [] [] [] [] [] [] []]; vm_compute in Hd; try discriminate Hd;
      repeat split; (reflexivity || discriminate). }
  destruct Hw as (-> & Hm & Hp).
  destruct c as [[] [] [] [] [] [] [] []]; try congruence;
    rewrite Hd; f_equal; apply Z.mul_1_l.
Qed.

Lemma parseInt_minus_digit c s d :
  digit_value c = Some d ->
  parseInt (String "-" (String c s)) = Some (- parse_digits 0 (String c s)).
Proof.
  intros Hd. unfold parseInt. cbn [trim_start]. change (is_white_space "-") with false.
  cbv iota. rewrite Hd. f_equal; lia.
Qed.

Lemma parseInt_Number_toString (n : Z) : parseInt (Number_toString n) = Some n.
Proof.
  destruct n as [|p|p]; [reflexivity | ..];
    unfold Number_toString, Z.to_int, NilZero.string_of_int, NilZero.string_of_uint;
    pose proof (Unsigned.to_uint_nonnil p) as Hnil;
    destruct (uint_string_head _ Hnil) as (c & s & d & Hs & Hd);
    pose proof (parse_digits_uint (Pos.to_uint p)) as Hv;
    rewrite Unsigned.of_to in Hv; rewrite Hs in Hv;
    (destruct (Pos.to_uint p); [congruence | rewrite Hs ..]).
  all: first [ rewrite (parseInt_digit _ _ _ Hd) | rewrite (parseInt_minus_digit _ _ _ Hd) ];
    rewrite Hv; reflexivity.
Qed.

Lemma list_ascii_of_string_app (s t : string) :
  list_ascii_of_string (s ++ t) = list_ascii_of_string s ++ list_ascii_of_string t.
Proof. induction s as [|c s IH]; cbn; [reflexivity | now rewrite IH]. Qed.

Lemma ascii7_app (s t : string) :
  Js.ascii7 s -> Js.ascii7 t -> Js.ascii7 (s ++ t).
Proof.
  unfold Js.ascii7. rewrite list_ascii_of_string_app. apply Forall_app_2.
Qed.

Lemma ascii7_uint (u : Decimal.uint) : Js.ascii7 (NilEmpty.string_of_uint u).
Proof.
  unfold Js.ascii7.
  induction u; cbn [NilEmpty.string_of_uint list_ascii_of_string]; constructor;
    (reflexivity || assumption).
Qed.

Lemma ascii7_Number_toString (n : Z) : Js.ascii7 (Number_toString n).
Proof.
  assert (Hu : forall u, Js.ascii7 (NilZero.string_of_uint u)).
  { intros u. unfold NilZero.string_of_uint.
    destruct u; try apply (ascii7_uint (_ _)). repeat constructor. }
  unfold Number_toString. destruct (Z.to_int n) as [u|u]; cbn [NilZero.string_of_int].
  - apply Hu.
  - constructor; [reflexivity | apply Hu].
Qed.

Lemma ascii7_PREFIX : Js.ascii7 PREFIX.
Proof. repeat constructor. Qed.

Lemma substring_app (p s : string) : substring (String.length p) (p ++ s) = s.
Proof. induction p as [|c p IH]; [now destruct s | exact IH]. Qed.

End NumeralFacts.

(** ** The codec *)

(** Decoding does not look at the eighteen characters it drops: any 7-bit
    text of the length of the prefix, followed by a decimal numeral, decodes
    to the number. *)
Lemma cursorToOffset_numeral (p : string) (n : Z) :
  Js.ascii7 p -> String.length p = String.length PREFIX ->
  cursorToOffset (base64 (p ++ Js.Number_toString n)) = Some n.
Proof.
  intros Hp Hlen. unfold cursorToOffset.
  rewrite unbase64_base64
    by (apply NumeralFacts.ascii7_app; [exact Hp | apply NumeralFacts.ascii7_Number_toString]).
  rewrite <- Hlen, NumeralFacts.substring_app.
  apply NumeralFacts.parseInt_Number_toString.
Qed.

Lemma cursorToOffset_offsetToCursor (n : Z) : cursorToOffset (offsetToCursor n) = Some n.
Proof.
  apply cursorToOffset_numeral; [apply NumeralFacts.ascii7_PREFIX | reflexivity].
Qed.

(** ** Runs of programs *)

Section RunFacts.

Context {V F W : Type} (h : handler V F W).

Lemma run_bind {A B : Type} (p : prog V F A) (k : A -> prog V F B) (w : W) :
  run h (bind p k) w
  = let '(a, w1, t1) := run h p w in
    let '(b, w2, t2) := run h (k a) w1 in
    (b, w2, t1 ++ t2).
Proof.
  revert w. induction p as [a|X o k' IH]; intros w; cbn [bind run].
  - now destruct (run h (k a) w) as [[b w2] t2].
  - destruct (h X o w) as [x w1]. rewrite IH.
    destruct (run h (k' x) w1) as [[a w2] t1].
    now destruct (run h (k a) w2) as [[b w3] t2].
Qed.

Lemma run_bind_inv {A B : Type} (p : prog V F A) (k : A -> prog V F B) w b w' tr :
  run h (bind p k) w = (b, w', tr) ->
  exists a w1 t1 t2,
    run h p w = (a, w1, t1) /\ run h (k a) w1 = (b, w', t2) /\ tr = t1 ++ t2.
Proof.
  rewrite run_bind. destruct (run h p w) as [[a w1] t1].
  destruct (run h (k a) w1) as [[b' w2] t2] eqn:Hk.
  intros [= <- <- <-]. now exists a, w1, t1, t2.
Qed.

Lemma run_trigger_inv {X : Type} (o : op V F X) w x w' tr :
  run h (trigger o) w = (x, w', tr) -> h X o w = (x, w') /\ tr = [Event o x].
Proof.
  cbn [trigger run]. destruct (h X o w) as [x' w1]. now intros [= <- <- <-].
Qed.

Lemma run_Ret_inv {A : Type} (a : A) w b w' tr :
  run h (Ret a) w = (b, w', tr) -> b = a /\ w' = w /\ tr = [].
Proof. cbn [run]. now intros [= <- <- <-]. Qed.

Lemma call_events_cons (f : F) (array : list V) i v l y ys :
  call_events f array i (v :: l) (y :: ys)
  = Event (Call f v (Z.of_nat i) array) y :: call_events f array (S i) l ys.
Proof.
  unfold call_events. cbn [zip zip_with]. rewrite imap_cons. cbn [fst snd].
  rewrite Nat.add_0_r. f_equal.
  apply imap_ext. intros j [v' y'] _. cbn. now rewrite Nat.add_succ_r.
Qed.

Lemma run_Array_map_from_inv (f : F) (array : list V) i l w ys w' tr :
  run h (Array_map_from f array i l) w = (ys, w', tr) ->
  length ys = length l /\ tr = call_events f array i l ys.
Proof.
  revert i w ys w' tr. induction l as [|v l IH]; intros i w ys w' tr Hrun.
  - apply run_Ret_inv in Hrun as (-> & _ & ->). now split.
  - cbn [Array_map_from] in Hrun.
    apply run_bind_inv in Hrun as (y & w1 & t1 & t2 & Hcall & Hrun & ->).
    apply run_trigger_inv in Hcall as [_ ->].
    apply run_bind_inv in Hrun as (ys' & w2 & t3 & t4 & Hrest & Hret & ->).
    apply run_Ret_inv in Hret as (-> & _ & ->).
    apply IH in Hrest as [Hlen ->]. split; [cbn; now rewrite Hlen|].
    now rewrite call_events_cons, app_nil_r.
Qed.

Lemma call_events_calls (f : F) (array : list V) i l ys :
  filter (fun e => is_call e = true) (call_events f array i l ys)
  = call_events f array i l ys.
Proof.
  revert i ys. induction l as [|v l IH]; intros i [|y ys]; try reflexivity.
  rewrite call_events_cons, filter_cons_True by reflexivity. now rewrite IH.
Qed.

Lemma call_events_no_fetch (f : F) (array : list V) i l ys :
  filter (fun e => is_fetch e = true) (call_events f array i l ys) = [].
Proof.
  revert i ys. induction l as [|v l IH]; intros i [|y ys]; try reflexivity.
  rewrite call_events_cons, filter_cons_False by discriminate. apply IH.
Qed.

(** The shape of every run of [connectionFromMongoCursor]. *)
Lemma run_connectionFromMongoCursor inMongoCursor args mapper w conn w' tr :
  run h (connectionFromMongoCursor inMongoCursor args mapper) w = (conn, w', tr) ->
  exists (cur : ref) (count : Z) (slice nodes : list V),
    let win := MongoCursor_window count args in
    tr = Event (Clone inMongoCursor) cur
         :: Event (Count cur) count
         :: Event (Skip cur (skip win)) tt
         :: Event (Limit cur (limit win)) tt
         :: (if limit win =? 0 then [] else [Event (ToArray cur) slice])
         ++ match mapper with
            | Some f => call_events f slice 0 slice nodes
            | None => []
            end
    /\ (limit win = 0 -> slice = [])
    /\ length nodes = length slice
    /\ (mapper = None -> nodes = slice)
    /\ edges conn = make_edges (startOffset win) nodes
    /\ hasPreviousPage (pageInfo conn)
       = (if neq_null (last args) then startOffset win >? lowerBound win else false)
    /\ hasNextPage (pageInfo conn)
       = (if neq_null (first args) then endOffset win <? upperBound win else false).
Proof.
  unfold connectionFromMongoCursor. intros Hrun.
  apply run_bind_inv in Hrun as (cur & w1 & ? & ? & Hclone & Hrun & ->).
  apply run_trigger_inv in Hclone as [_ ->].
  apply run_bind_inv in Hrun as (count & w2 & ? & ? & Hcount & Hrun & ->).
  apply run_trigger_inv in Hcount as [_ ->].
  apply run_bind_inv in Hrun as ([] & w3 & ? & ? & Hskip & Hrun & ->).
  apply run_trigger_inv in Hskip as [_ ->].
  apply run_bind_inv in Hrun as ([] & w4 & ? & ? & Hlimit & Hrun & ->).
  apply run_trigger_inv in Hlimit as [_ ->].
  apply run_bind_inv in Hrun as (slice & w5 & tf & ? & Hfetch & Hrun & ->).
  apply run_bind_inv in Hrun as (nodes & w6 & tm & ? & Hmap & Hret & ->).
  apply run_Ret_inv in Hret as (-> & _ & ->).
  exists cur, count, slice, nodes. cbn zeta. cbn [app].
  assert (Hf : tf = (if limit (MongoCursor_window count args) =? 0 then []
                     else [Event (ToArray cur) slice])
               /\ (limit (MongoCursor_window count args) = 0 -> slice = [])).
  { destruct (Z.eqb_spec (limit (MongoCursor_window count args)) 0) as [H0|H0].
    - apply run_Ret_inv in Hfetch as (-> & _ & ->). now split.
    - apply run_trigger_inv in Hfetch as [_ ->]. split; [reflexivity | contradiction]. }
  destruct Hf as [-> Hslice].
  assert (Hm : tm = match mapper with
                    | Some f => call_events f slice 0 slice nodes
                    | None => []
                    end
               /\ length nodes = length slice /\ (mapper = None -> nodes = slice)).
  { destruct mapper as [f|].
    - apply run_Array_map_from_inv in Hmap as [Hlen ->]. now repeat split.
    - apply run_Ret_inv in Hmap as (-> & _ & ->). now repeat split. }
  destruct Hm as (-> & Hlen & Hnone).
  rewrite app_nil_r. cbn [edges pageInfo hasPreviousPage hasNextPage].
  repeat split; auto.
Qed.

End RunFacts.

(** ** The offset window *)

Lemma getOffsetWithDefault_empty (d : Z) : getOffsetWithDefault (Some EmptyString) d = d.
Proof. reflexivity. Qed.

Lemma truthy_present (cursor : option string) :
  truthy cursor = Spec.present cursor \/ cursor = Some EmptyString.
Proof. destruct cursor as [[|c s]|]; auto. Qed.

(** The window of [connectionFromMongoCursor] is the Resolver's, the limit
    apart. *)
Lemma MongoCursor_window_Resolver (totalCount : Z) (args : ConnectionArgs) :
  let w := MongoCursor_window totalCount args in
  let s := Spec.Resolver totalCount args in
  beforeOffset w = beforeOffset s /\ afterOffset w = afterOffset s
  /\ startOffset w = startOffset s /\ endOffset w = endOffset s
  /\ skip w = skip s
  /\ lowerBound w = lowerBound s /\ upperBound w = upperBound s.
Proof.
  destruct args as [a b f l]. unfold MongoCursor_window, Spec.Resolver.
  cbn [after before first last beforeOffset afterOffset startOffset endOffset skip
       lowerBound upperBound].
  destruct (truthy_present a) as [Ha | ->], (truthy_present b) as [Hb | ->];
    rewrite ?Ha, ?Hb, ?getOffsetWithDefault_empty; cbn [truthy Spec.present];
    destruct f, l; cbn [neq_undefined ToNumber];
    repeat split; try reflexivity; lia.
Qed.

(** C1. For every total count and every [after], [before], [first] and
    [last], [connectionFromMongoCursor] works on the window the Resolver
    specifies: [beforeOffset], [afterOffset], [startOffset], [endOffset],
    [skip], [lowerBound] and [upperBound] are the Resolver's (steps 1 to 6,
    the skip of step 7, steps 8 and 9), for the count the source answered;
    the skip is what the source is given, the edges are numbered from
    [startOffset], and the page flags compare with the two bounds. *)
Theorem window_matches_resolver
    {V F W : Type} (h : handler V F W) (w : W)
    (inMongoCursor : ref) (args : ConnectionArgs) (mapper : option F)
    (conn : Connection V) (w' : W) (tr : list (event V F)) :
  run h (connectionFromMongoCursor inMongoCursor args mapper) w = (conn, w', tr) ->
  exists (cur : ref) (totalCount : Z) (nodes : list V),
    let win := MongoCursor_window totalCount args in
    let s := Spec.Resolver totalCount args in
    take 3 tr = [Event (Clone inMongoCursor) cur; Event (Count cur) totalCount;
                 Event (Skip cur (skip s)) tt]
    /\ edges conn = make_edges (startOffset s) nodes
    /\ hasPreviousPage (pageInfo conn)
       = (if neq_null (last args) then startOffset s >? lowerBound s else false)
    /\ hasNextPage (pageInfo conn)
       = (if neq_null (first args) then endOffset s <? upperBound s else false)
    /\ beforeOffset win = beforeOffset s /\ afterOffset win = afterOffset s
    /\ startOffset win = startOffset s /\ endOffset win = endOffset s
    /\ skip win = skip s
    /\ lowerBound win = lowerBound s /\ upperBound win = upperBound s.
Proof.
  intros Hrun.
  apply run_connectionFromMongoCursor in Hrun
    as (cur & count & slice & nodes & Htr & _ & _ & _ & Hedges & Hprev & Hnext).
  destruct (MongoCursor_window_Resolver count args)
    as (Hb & Ha & Hs & He & Hk & Hlo & Hup).
  exists cur, count, nodes. cbn zeta.
  rewrite <- Hs, <- He, <- Hk, <- Hlo, <- Hup.
  repeat split; try assumption. rewrite Htr. reflexivity.
Qed.

(** C1 on ten items with [first = 3]. *)
Lemma window_matches_resolver_witness :
  let r := run_memory (connectionFromMongoCursor 0%nat first_3 None) [ten_items] in
  r = (r.1.1, r.1.2, r.2)
  /\ exists (cur : ref) (totalCount : Z) (nodes : list Z),
       let win := MongoCursor_window totalCount first_3 in
       let s := Spec.Resolver totalCount first_3 in
       take 3 r.2 = [Event (Clone 0%nat) cur; Event (Count cur) totalCount;
                     Event (Skip cur (skip s)) tt]
       /\ edges r.1.1 = make_edges (startOffset s) nodes
       /\ hasPreviousPage (pageInfo r.1.1)
          = (if neq_null (last first_3) then startOffset s >? lowerBound s else false)
       /\ hasNextPage (pageInfo r.1.1)
          = (if neq_null (first first_3) then endOffset s <? upperBound s else false)
       /\ beforeOffset win = beforeOffset s /\ afterOffset win = afterOffset s
       /\ startOffset win = startOffset s /\ endOffset win = endOffset s
       /\ skip win = skip s
       /\ lowerBound win = lowerBound s /\ upperBound win = upperBound s.
Proof.
  intros r. split; [reflexivity|].
  apply (window_matches_resolver (heap_handler memory_driver) [ten_items]
           0%nat first_3 None r.1.1 r.1.2 r.2).
  reflexivity.
Defined.

(** ** The codec, as specified *)




(** C7. [getOffsetWithDefault] returns the default when the cursor is
    absent; for a given cursor it returns the default again when decoding
    yields [NaN], and the decoded integer otherwise. *)
Theorem getOffsetWithDefault_cases (cursor : option string) (defaultOffset : Z) :
  (cursor = None -> getOffsetWithDefault cursor defaultOffset = defaultOffset)
  /\ (forall c, cursor = Some c -> cursorToOffset c = None ->
        getOffsetWithDefault cursor defaultOffset = defaultOffset)
  /\ (forall c n, cursor = Some c -> cursorToOffset c = Some n ->
        getOffsetWithDefault cursor defaultOffset = n).
Proof.
  repeat split.
  - now intros ->.
  - intros c -> Hc. unfold getOffsetWithDefault. now rewrite Hc.
  - intros c n -> Hc. unfold getOffsetWithDefault. now rewrite Hc.
Qed.

(** C7 on no cursor, on a string that is not a cursor, and on the cursor
    of offset 2. *)
Lemma getOffsetWithDefault_cases_witness :
  getOffsetWithDefault None 7 = 7
  /\ (cursorToOffset "not a cursor" = None
      /\ getOffsetWithDefault (Some "not a cursor"%string) 7 = 7)
  /\ (cursorToOffset "bW9uZ29kYmNvbm5lY3Rpb246Mg==" = Some 2
      /\ getOffsetWithDefault (Some "bW9uZ29kYmNvbm5lY3Rpb246Mg=="%string) 7 = 2).
Proof.
  split; [|split].
  - apply (proj1 (getOffsetWithDefault_cases None 7)). reflexivity.
  - split; [reflexivity|].
    apply (proj1 (proj2 (getOffsetWithDefault_cases (Some "not a cursor"%string) 7))
             "not a cursor"%string); reflexivity.
  - split; [reflexivity|].
    apply (proj2 (proj2 (getOffsetWithDefault_cases
                           (Some "bW9uZ29kYmNvbm5lY3Rpb246Mg=="%string) 7))
             "bW9uZ29kYmNvbm5lY3Rpb246Mg=="%string 2); reflexivity.
Defined.

(** *** What [parseInt] accepts *)

Module ParseFacts.
Import Js.






End ParseFacts.



(** ** The empty window, the mapper and the edges *)

Lemma inverted_window_limit (count : Z) (args : ConnectionArgs) :
  let win := MongoCursor_window count args in
  afterOffset win >= beforeOffset win -> limit win < 0.
Proof.
  destruct args as [a b f l]. unfold MongoCursor_window.
  cbn [afterOffset beforeOffset limit].
  destruct (neq_undefined f), (neq_undefined l); lia.
Qed.

(** C3, as the code has it.  The limit given to the source is
    [endOffset - startOffset], as it comes.  When it is 0 the builder
    returns no edges and does not fetch.  When it is not 0 the builder
    fetches once and makes one edge per fetched record; this is the case
    for every [after] and [before] with [afterOffset >= beforeOffset],
    where the limit is negative. *)
Theorem empty_window_short_circuit
    {V F W : Type} (h : handler V F W) (w : W)
    (inMongoCursor : ref) (args : ConnectionArgs) (mapper : option F)
    (conn : Connection V) (w' : W) (tr : list (event V F)) :
  run h (connectionFromMongoCursor inMongoCursor args mapper) w = (conn, w', tr) ->
  exists (cur : ref) (count : Z) (slice : list V),
    let win := MongoCursor_window count args in
    take 4 tr = [Event (Clone inMongoCursor) cur; Event (Count cur) count;
                 Event (Skip cur (skip win)) tt;
                 Event (Limit cur (endOffset win - startOffset win)) tt]
    /\ limit win = endOffset win - startOffset win
    /\ (limit win = 0 ->
        edges conn = [] /\ filter (fun e => is_fetch e = true) tr = [])
    /\ (limit win <> 0 ->
        filter (fun e => is_fetch e = true) tr = [Event (ToArray cur) slice]
        /\ length (edges conn) = length slice)
    /\ (afterOffset win >= beforeOffset win -> limit win < 0).
Proof.
  intros Hrun.
  apply run_connectionFromMongoCursor in Hrun
    as (cur & count & slice & nodes & Htr & Hempty & Hlen & _ & Hedges & _).
  exists cur, count, slice. cbn zeta.
  assert (Hcalls : filter (fun e : event V F => is_fetch e = true)
                     match mapper with
                     | Some f => call_events f slice 0 slice nodes
                     | None => []
                     end = []).
  { destruct mapper; [apply call_events_no_fetch | reflexivity]. }
  assert (Hlim : limit (MongoCursor_window count args)
                 = endOffset (MongoCursor_window count args)
                   - startOffset (MongoCursor_window count args))
    by now destruct args.
  split; [|split; [|split; [|split]]].
  - rewrite Htr, Hlim. reflexivity.
  - exact Hlim.
  - intros H0. rewrite Htr, Hedges, H0. cbn [Z.eqb app].
    rewrite (Hempty H0) in Hlen. destruct nodes; [|discriminate].
    split; [reflexivity|].
    rewrite !filter_cons_False by discriminate. exact Hcalls.
  - intros H0. rewrite Htr, Hedges.
    destruct (Z.eqb_spec (limit (MongoCursor_window count args)) 0); [contradiction|].
    split.
    + rewrite !filter_cons_False by discriminate. cbn [app].
      rewrite filter_cons_True by reflexivity. now rewrite Hcalls.
    + unfold make_edges. now rewrite length_imap.
  - apply inverted_window_limit.
Qed.

(** C3, as the code has it, on ten items with [after] at 5 and [before]
    at 3. *)
Lemma empty_window_short_circuit_witness :
  let r := run_memory (connectionFromMongoCursor 0%nat after_5_before_3 None) [ten_items] in
  r = (r.1.1, r.1.2, r.2)
  /\ exists (cur : ref) (count : Z) (slice : list Z),
       let win := MongoCursor_window count after_5_before_3 in
       take 4 r.2 = [Event (Clone 0%nat) cur; Event (Count cur) count;
                     Event (Skip cur (skip win)) tt;
                     Event (Limit cur (endOffset win - startOffset win)) tt]
       /\ limit win = endOffset win - startOffset win
       /\ (limit win = 0 ->
           edges r.1.1 = [] /\ filter (fun e => is_fetch e = true) r.2 = [])
       /\ (limit win <> 0 ->
           filter (fun e => is_fetch e = true) r.2 = [Event (ToArray cur) slice]
           /\ length (edges r.1.1) = length slice)
       /\ (afterOffset win >= beforeOffset win -> limit win < 0).
Proof.
  intros r. split; [reflexivity|].
  apply (empty_window_short_circuit (heap_handler memory_driver) [ten_items]
           0%nat after_5_before_3 None r.1.1 r.1.2 r.2).
  reflexivity.
Defined.

(** C3, counterexample.  With ten items, [after] at offset 5 and [before] at
    offset 3, the decoded offsets are inverted, and yet the source is given
    the limit -3 and is asked to fetch. *)
Lemma inverted_window_fetches :
  let r := run_memory (connectionFromMongoCursor 0%nat after_5_before_3 None) [ten_items] in
  let win := MongoCursor_window 10 after_5_before_3 in
  afterOffset win = 5 /\ beforeOffset win = 3 /\ afterOffset win >= beforeOffset win
  /\ r.2 = [Event (Clone 0%nat) 1%nat; Event (Count 1%nat) 10;
            Event (Skip 1%nat 6) tt; Event (Limit 1%nat (-3)) tt;
            Event (ToArray 1%nat) [106; 107; 108]]
  /\ ~ (filter (fun e => is_fetch e = true) r.2 = []).
Proof.
  cbn zeta. repeat split; try reflexivity; vm_compute; discriminate.
Qed.

Lemma call_events_lookup {V F : Type} (f : F) (array l ys : list V) (i : nat) (v y : V) :
  l !! i = Some v -> ys !! i = Some y ->
  call_events f array 0 l ys !! i = Some (Event (Call f v (Z.of_nat i) array) y).
Proof.
  intros Hv Hy. unfold call_events.
  rewrite list_lookup_imap, lookup_zip_with, Hv, Hy. reflexivity.
Qed.

Lemma call_events_length {V F : Type} (f : F) (array l ys : list V) (i : nat) :
  length ys = length l -> length (call_events f array i l ys) = length l.
Proof.
  intros Hlen. unfold call_events. rewrite length_imap, length_zip_with. lia.
Qed.

(** C8. The slice is what the fetch answered (or empty when nothing is
    fetched).  With a mapper, the calls of the mapper are one per record of
    the slice, in the order of the slice: call [i] is on record [i] (with
    index [i] and the slice), and there are no other calls.  Edge [i] has
    the cursor of [startOffset + i] and, as its node, what call [i]
    answered; without a mapper nothing is called and the node is record
    [i]. *)
Theorem mapper_and_edges
    {V F W : Type} (h : handler V F W) (w : W)
    (inMongoCursor : ref) (args : ConnectionArgs) (mapper : option F)
    (conn : Connection V) (w' : W) (tr : list (event V F)) :
  run h (connectionFromMongoCursor inMongoCursor args mapper) w = (conn, w', tr) ->
  exists (cur : ref) (count : Z) (slice nodes : list V),
    let win := MongoCursor_window count args in
    let calls := filter (fun e => is_call e = true) tr in
    tr !! 1%nat = Some (Event (Count cur) count)
    /\ filter (fun e => is_fetch e = true) tr
       = (if limit win =? 0 then [] else [Event (ToArray cur) slice])
    /\ (limit win = 0 -> slice = [])
    /\ length nodes = length slice
    /\ (forall f, mapper = Some f ->
          length calls = length slice
          /\ forall i v, slice !! i = Some v ->
               exists y, nodes !! i = Some y
                 /\ calls !! i = Some (Event (Call f v (Z.of_nat i) slice) y))
    /\ (mapper = None -> calls = [] /\ nodes = slice)
    /\ length (edges conn) = length slice
    /\ (forall i y, nodes !! i = Some y ->
          edges conn !! i
          = Some {| cursor := offsetToCursor (startOffset win + Z.of_nat i);
                    node := y |}).
Proof.
  intros Hrun.
  apply run_connectionFromMongoCursor in Hrun
    as (cur & count & slice & nodes & Htr & Hempty & Hlen & Hnone & Hedges & _).
  exists cur, count, slice, nodes. cbn zeta.
  set (win := MongoCursor_window count args) in *.
  set (fetched := if limit win =? 0 then [] else [Event (ToArray cur) slice]) in *.
  set (called := match mapper with
                 | Some f => call_events f slice 0 slice nodes
                 | None => []
                 end) in *.
  assert (Hff : filter (fun e : event V F => is_fetch e = true) fetched = fetched
                /\ filter (fun e : event V F => is_call e = true) fetched = []).
  { unfold fetched. now destruct (limit win =? 0). }
  assert (Hcc : filter (fun e : event V F => is_fetch e = true) called = []
                /\ filter (fun e : event V F => is_call e = true) called = called).
  { unfold called. destruct mapper; [|now split].
    split; [apply call_events_no_fetch | apply call_events_calls]. }
  destruct Hff as [Hff Hfc]. destruct Hcc as [Hcf Hcc].
  assert (Hcalls : filter (fun e : event V F => is_call e = true) tr = called).
  { rewrite Htr. rewrite !filter_cons_False by discriminate.
    now rewrite filter_app, Hfc, Hcc. }
  assert (Hfetch : filter (fun e : event V F => is_fetch e = true) tr = fetched).
  { rewrite Htr. rewrite !filter_cons_False by discriminate.
    now rewrite filter_app, Hff, Hcf, app_nil_r. }
  rewrite Hcalls, Hfetch.
  split; [now rewrite Htr|].
  split; [reflexivity|].
  split; [exact Hempty|].
  split; [exact Hlen|].
  split; [|split; [|split]].
  - intros f ->. unfold called. split; [now apply call_events_length|].
    intros i v Hv.
    destruct (nodes !! i) as [y|] eqn:Hy.
    + exists y. split; [reflexivity | now apply call_events_lookup].
    + apply lookup_ge_None in Hy. apply lookup_lt_Some in Hv. lia.
  - intros ->. unfold called. split; [reflexivity | now apply Hnone].
  - rewrite Hedges. unfold make_edges. now rewrite length_imap.
  - intros i y Hy. rewrite Hedges. unfold make_edges.
    now rewrite list_lookup_imap, Hy.
Qed.

(** C8 on ten items with [first = 3] and a mapper that doubles. *)
Lemma mapper_and_edges_witness :
  let r := run_memory (connectionFromMongoCursor 0%nat first_3 (Some double)) [ten_items] in
  r = (r.1.1, r.1.2, r.2)
  /\ offsets_and_nodes r.1.1 = [(Some 0, 200); (Some 1, 202); (Some 2, 204)]
  /\ exists (cur : ref) (count : Z) (slice nodes : list Z),
       let win := MongoCursor_window count first_3 in
       let calls := filter (fun e => is_call e = true) r.2 in
       r.2 !! 1%nat = Some (Event (Count cur) count)
       /\ filter (fun e => is_fetch e = true) r.2
          = (if limit win =? 0 then [] else [Event (ToArray cur) slice])
       /\ (limit win = 0 -> slice = [])
       /\ length nodes = length slice
       /\ (forall f, Some double = Some f ->
             length calls = length slice
             /\ forall i v, slice !! i = Some v ->
                  exists y, nodes !! i = Some y
                    /\ calls !! i = Some (Event (Call f v (Z.of_nat i) slice) y))
       /\ (Some double = None -> calls = [] /\ nodes = slice)
       /\ length (edges r.1.1) = length slice
       /\ (forall i y, nodes !! i = Some y ->
             edges r.1.1 !! i
             = Some {| cursor := offsetToCursor (startOffset win + Z.of_nat i);
                       node := y |}).
Proof.
  intros r. split; [reflexivity|]. split; [reflexivity|].
  apply (mapper_and_edges (heap_handler memory_driver) [ten_items]
           0%nat first_3 (Some double) r.1.1 r.1.2 r.2).
  reflexivity.
Defined.

(** *** Page flags *)

(** C4 asks for [hasPreviousPage = false] whenever [last] is not supplied.
    The code compares [last] with [null], not with [undefined]: on ten
    items, with [after] the cursor of offset -5 and no [last], the window
    starts at 0, the lower bound is -4, and [hasPreviousPage] is [true]. *)
Theorem hasPreviousPage_without_last :
  let c := (run_memory (connectionFromMongoCursor 0%nat after_minus_5 None) [ten_items]).1.1 in
  let win := MongoCursor_window 10 after_minus_5 in
  last after_minus_5 = Undefined
  /\ startOffset win = 0 /\ lowerBound win = -4
  /\ hasPreviousPage (pageInfo c) = true.
Proof. cbn zeta. repeat split. Qed.

(** The flags on every run: [last] and [first] are compared with [null]
    only, so an absent page size takes the comparing branch. *)
Lemma page_flags
    {V F W : Type} (h : handler V F W) (w : W)
    (inMongoCursor : ref) (args : ConnectionArgs) (mapper : option F)
    (conn : Connection V) (w' : W) (tr : list (event V F)) :
  run h (connectionFromMongoCursor inMongoCursor args mapper) w = (conn, w', tr) ->
  exists (cur : ref) (count : Z),
    let win := MongoCursor_window count args in
    tr !! 1%nat = Some (Event (Count cur) count)
    /\ (last args <> Null ->
        hasPreviousPage (pageInfo conn) = (startOffset win >? lowerBound win))
    /\ (first args <> Null ->
        hasNextPage (pageInfo conn) = (endOffset win <? upperBound win))
    /\ (first args = Undefined -> hasNextPage (pageInfo conn) = false).
Proof.
  intros Hrun.
  apply run_connectionFromMongoCursor in Hrun
    as (cur & count & slice & nodes & Htr & _ & _ & _ & _ & Hprev & Hnext).
  exists cur, count. cbn zeta. split; [now rewrite Htr|].
  rewrite Hprev, Hnext. destruct args as [a b f l]. cbn [first last].
  repeat split.
  - now destruct l.
  - now destruct f.
  - intros ->. cbn [neq_null]. unfold MongoCursor_window.
    cbn [endOffset upperBound neq_undefined].
    destruct b as [[|c s]|]; cbn [truthy]; rewrite ?getOffsetWithDefault_empty;
      cbn [getOffsetWithDefault]; apply Z.ltb_ge; lia.
Qed.

(** ** The three builders side by side *)

Lemma MongooseAggregate_window_MongooseQuery (count : Z) (args : ConnectionArgs) :
  MongooseAggregate_window count args = MongooseQuery_window count args.
Proof. reflexivity. Qed.

(** Without [last] the three windows are the same. *)
Lemma windows_agree_without_last (count : Z) (args : ConnectionArgs) :
  last args = Undefined ->
  MongooseQuery_window count args = MongoCursor_window count args.
Proof. destruct args as [a b f l]. cbn [last]. now intros ->. Qed.

(** C2 asks the three builders for the same result, with [last] applied as
    a maximum.  On ten items and [last = 3] the cursor builder takes the
    maximum and returns the items at offsets 7 to 9; the query and
    aggregation builders take the minimum, start at 0 and return all ten
    items. *)
Theorem last_differs_between_builders :
  let cursor_conn :=
    (run_memory (connectionFromMongoCursor 0%nat last_3 None) [ten_items]).1.1 in
  let query_conn :=
    (run_memory (connectionFromMongooseQuery 0%nat last_3 None) [ten_items]).1.1 in
  let aggr_conn :=
    (run_memory (connectionFromMongooseAggregate 0%nat last_3 None) [ten_items]).1.1 in
  startOffset (MongoCursor_window 10 last_3) = Z.max 0 (10 - 3)
  /\ startOffset (MongooseQuery_window 10 last_3) = Z.min 0 (10 - 3)
  /\ startOffset (MongooseAggregate_window 10 last_3) = Z.min 0 (10 - 3)
  /\ offsets_and_nodes cursor_conn = [(Some 7, 107); (Some 8, 108); (Some 9, 109)]
  /\ offsets_and_nodes query_conn
     = [(Some 0, 100); (Some 1, 101); (Some 2, 102); (Some 3, 103); (Some 4, 104);
        (Some 5, 105); (Some 6, 106); (Some 7, 107); (Some 8, 108); (Some 9, 109)]
  /\ offsets_and_nodes aggr_conn = offsets_and_nodes query_conn
  /\ query_conn <> cursor_conn.
Proof.
  cbn zeta. repeat split; try reflexivity.
  intros H. apply (f_equal (fun c => length (edges c))) in H.
  vm_compute in H. discriminate H.
Qed.

(** ** The caller's object *)

Section Frame.

Context {V F O : Type} (d : Driver V F O).

Lemma on_new_bind (n : nat) {A B : Type} (p : prog V F A) (k : A -> prog V F B) :
  on_new_objects n p -> (forall a, on_new_objects n (k a)) ->
  on_new_objects n (bind p k).
Proof.
  intros Hp Hk. induction Hp as [a|X o k' Ho _ IH]; cbn [bind]; [apply Hk|].
  constructor; assumption.
Qed.

Lemma on_new_method (n : nat) {X : Type} (o : op V F X) (r : ref) :
  receiver o = Some r -> (n <= r)%nat -> on_new_objects n (trigger o).
Proof.
  intros Ho Hr. constructor; [|constructor].
  intros r' Hr'. congruence.
Qed.

Lemma on_new_Array_map_from (n : nat) (f : F) (array : list V) i l :
  on_new_objects n (Array_map_from f array i l).
Proof.
  revert i. induction l as [|v l IH]; intros i; cbn [Array_map_from]; [constructor|].
  apply on_new_bind; [constructor; [discriminate | constructor] |].
  intros y. apply on_new_bind; [apply IH | constructor].
Qed.

Lemma new_from_step (r : ref) (heap : list O) (n : nat) :
  (n <= length heap)%nat ->
  (n <= (new_from d r heap).1)%nat
  /\ (n <= length (new_from d r heap).2)%nat
  /\ take n (new_from d r heap).2 = take n heap.
Proof.
  intros Hn. unfold new_from, alloc. destruct (heap !! r) eqn:Hr; cbn [fst snd].
  - rewrite length_app. repeat split; [lia.. | now rewrite take_app_le].
  - apply lookup_ge_None in Hr. repeat split; lia.
Qed.

Lemma method_step {X : Type} (r : ref) (m : O -> X * O) (dflt : X) (heap : list O) (n : nat) :
  (n <= length heap)%nat -> (n <= r)%nat ->
  (n <= length (method r m dflt heap).2)%nat
  /\ take n (method r m dflt heap).2 = take n heap.
Proof.
  intros Hn Hr. unfold method. destruct (heap !! r) as [o|]; [|now split].
  destruct (m o) as [x o']. cbn [snd]. rewrite length_insert. split; [exact Hn|].
  now apply take_insert_ge.
Qed.

Lemma heap_handler_step {X : Type} (o : op V F X) (heap : list O) (n : nat) :
  (n <= length heap)%nat ->
  (forall r, receiver o = Some r -> (n <= r)%nat) ->
  is_new n o (heap_handler d X o heap).1
  /\ (n <= length (heap_handler d X o heap).2)%nat
  /\ take n (heap_handler d X o heap).2 = take n heap.
Proof.
  intros Hn Hrecv.
  destruct o; cbn [heap_handler is_new receiver fst snd] in *;
    first [ now apply new_from_step
          | split; [exact I | apply method_step; [exact Hn | now apply Hrecv]]
          | now repeat split ].
Qed.

(** Such a program leaves the caller's objects as they were. *)
Lemma on_new_objects_frame (n : nat) {A : Type} (p : prog V F A) :
  on_new_objects n p ->
  forall heap a heap' tr,
    (n <= length heap)%nat ->
    run (heap_handler d) p heap = (a, heap', tr) ->
    take n heap' = take n heap.
Proof.
  induction 1 as [a|X o k Ho Hk IH]; intros heap b heap' tr Hn Hrun.
  - apply run_Ret_inv in Hrun as (_ & -> & _). reflexivity.
  - cbn [run] in Hrun.
    pose proof (heap_handler_step o heap n Hn Ho) as Hstep.
    destruct (heap_handler d X o heap) as [x heap1].
    cbn [fst snd] in Hstep. destruct Hstep as (Hx & Hn1 & Htake).
    destruct (run (heap_handler d) (k x) heap1) as [[a' heap2] tr'] eqn:Hrun'.
    injection Hrun as <- <- <-.
    rewrite (IH x Hx heap1 a' heap2 tr' Hn1 Hrun'). exact Htake.
Qed.

Lemma connectionFromMongoCursor_on_new (n : nat) inMongoCursor args (mapper : option F) :
  on_new_objects n (connectionFromMongoCursor (V := V) inMongoCursor args mapper).
Proof.
  unfold connectionFromMongoCursor. cbn [bind trigger].
  constructor; [discriminate|]. intros cur Hcur. cbn [is_new] in Hcur.
  constructor; [now intros r [= <-]|]. intros count _.
  constructor; [now intros r [= <-]|]. intros [] _.
  constructor; [now intros r [= <-]|]. intros [] _.
  apply on_new_bind.
  { destruct (_ =? 0); [constructor | now apply (on_new_method n (ToArray cur) cur)]. }
  intros slice. apply on_new_bind; [|constructor].
  destruct mapper; [apply on_new_Array_map_from | constructor].
Qed.

Lemma connectionFromMongooseAggregate_on_new (n : nat) aggr args (mapper : option F) :
  on_new_objects n (connectionFromMongooseAggregate (V := V) aggr args mapper).
Proof.
  unfold connectionFromMongooseAggregate, cloneAggregation. cbn [bind trigger].
  constructor; [discriminate|]. intros mongooseAggr Hm. cbn [is_new] in Hm.
  constructor; [discriminate|]. intros countAggr Hc. cbn [is_new] in Hc.
  constructor; [now intros r [= <-]|]. intros countArr _.
  constructor; [now intros r [= <-]|]. intros [] _.
  constructor; [now intros r [= <-]|]. intros [] _.
  apply on_new_bind.
  { destruct (_ =? 0); [constructor | now apply (on_new_method n (Exec mongooseAggr) mongooseAggr)]. }
  intros slice. apply on_new_bind; [|constructor].
  destruct mapper; [apply on_new_Array_map_from | constructor].
Qed.

(** The cursor and aggregation builders work on duplicates: every object of
    the caller is after the call what it was before. *)
Lemma cloning_builders_frame (p : prog V F (Connection V)) heap conn heap' tr :
  (exists src args mapper,
     p = connectionFromMongoCursor src args mapper
     \/ p = connectionFromMongooseAggregate src args mapper) ->
  run (heap_handler d) p heap = (conn, heap', tr) ->
  forall r o, heap !! r = Some o -> heap' !! r = Some o.
Proof.
  intros (src & args & mapper & Hp) Hrun r o Hr.
  assert (Hnew : on_new_objects (length heap) p).
  { destruct Hp as [-> | ->];
      [apply connectionFromMongoCursor_on_new | apply connectionFromMongooseAggregate_on_new]. }
  pose proof (on_new_objects_frame _ p Hnew heap conn heap' tr (Nat.le_refl _) Hrun) as Htake.
  rewrite firstn_all in Htake.
  rewrite <- Htake in Hr. rewrite lookup_take_Some in Hr. tauto.
Qed.

End Frame.

(** C6 asks every builder to leave the caller's object as it was.
    [connectionFromMongooseQuery] works on the query it is passed: on a
    query of ten items with [first = 2], the caller's query carries the
    limit 2 after the call, while the same call of the two other builders
    leaves the caller's object as it was. *)
Theorem query_builder_alters_query :
  let heap_after (p : prog Z (Z -> Z) (Connection Z)) := (run_memory p [ten_items]).1.2 in
  heap_after (connectionFromMongooseQuery 0%nat first_2 None) !! 0%nat
  = Some {| items := items ten_items; skipped := 0; limited := 2 |}
  /\ heap_after (connectionFromMongooseQuery 0%nat first_2 None) !! 0%nat
     <> Some ten_items
  /\ heap_after (connectionFromMongoCursor 0%nat first_2 None) !! 0%nat = Some ten_items
  /\ heap_after (connectionFromMongooseAggregate 0%nat first_2 None) !! 0%nat
     = Some ten_items.
Proof. cbn zeta. repeat split; try reflexivity. vm_compute. discriminate. Qed.

(** * Further properties *)

(** ** The shape of every run, builder by builder *)

Section Shapes.

Context {V F W : Type} (h : handler V F W).

Lemma run_fetch_inv (lim : Z) (o : op V F (list V)) w slice w' tr :
  run h (if lim =? 0 then Ret [] else trigger o) w = (slice, w', tr) ->
  tr = (if lim =? 0 then [] else [Event o slice]) /\ (lim = 0 -> slice = []).
Proof.
  destruct (Z.eqb_spec lim 0) as [H0|H0]; intros Hrun.
  - apply run_Ret_inv in Hrun as (-> & _ & ->). now split.
  - apply run_trigger_inv in Hrun as [_ ->]. split; [reflexivity | contradiction].
Qed.

Lemma run_mapper_inv (mapper : option F) (slice : list V) w nodes w' tr :
  run h match mapper with
        | Some f => Array_map f slice
        | None => Ret slice
        end w = (nodes, w', tr) ->
  tr = match mapper with
       | Some f => call_events f slice 0 slice nodes
       | None => []
       end
  /\ length nodes = length slice /\ (mapper = None -> nodes = slice).
Proof.
  destruct mapper as [f|]; intros Hrun.
  - apply run_Array_map_from_inv in Hrun as [Hlen ->]. now repeat split.
  - apply run_Ret_inv in Hrun as (-> & _ & ->). now repeat split.
Qed.

Lemma cursor_builder_shape inMongoCursor args mapper w conn w' tr :
  run h (connectionFromMongoCursor inMongoCursor args mapper) w = (conn, w', tr) ->
  exists (cur : ref) (count : Z) (slice nodes : list V),
    let win := MongoCursor_window count args in
    tr = Event (Clone inMongoCursor) cur
         :: Event (Count cur) count
         :: Event (Skip cur (skip win)) tt
         :: Event (Limit cur (limit win)) tt
         :: fetch_and_map_events (Event (ToArray cur) slice) (limit win) mapper slice nodes
    /\ (limit win = 0 -> slice = [])
    /\ length nodes = length slice
    /\ (mapper = None -> nodes = slice)
    /\ conn = make_connection win args nodes.
Proof.
  unfold connectionFromMongoCursor. intros Hrun.
  apply run_bind_inv in Hrun as (cur & w1 & ? & ? & Hclone & Hrun & ->).
  apply run_trigger_inv in Hclone as [_ ->].
  apply run_bind_inv in Hrun as (count & w2 & ? & ? & Hcount & Hrun & ->).
  apply run_trigger_inv in Hcount as [_ ->].
  apply run_bind_inv in Hrun as ([] & w3 & ? & ? & Hskip & Hrun & ->).
  apply run_trigger_inv in Hskip as [_ ->].
  apply run_bind_inv in Hrun as ([] & w4 & ? & ? & Hlimit & Hrun & ->).
  apply run_trigger_inv in Hlimit as [_ ->].
  apply run_bind_inv in Hrun as (slice & w5 & tf & ? & Hfetch & Hrun & ->).
  apply run_bind_inv in Hrun as (nodes & w6 & tm & ? & Hmap & Hret & ->).
  apply run_Ret_inv in Hret as (-> & _ & ->).
  apply run_fetch_inv in Hfetch as [-> Hslice].
  apply run_mapper_inv in Hmap as (-> & Hlen & Hnone).
  exists cur, count, slice, nodes. cbn zeta. unfold fetch_and_map_events.
  rewrite app_nil_r. now repeat split.
Qed.

Lemma query_builder_shape query args mapper w conn w' tr :
  run h (connectionFromMongooseQuery query args mapper) w = (conn, w', tr) ->
  exists (count : Z) (slice nodes : list V),
    let win := MongooseQuery_window count args in
    tr = Event (Count query) count
         :: Event (Skip query (skip win)) tt
         :: Event (Limit query (limit win)) tt
         :: fetch_and_map_events (Event (Find query) slice) (limit win) mapper slice nodes
    /\ (limit win = 0 -> slice = [])
    /\ length nodes = length slice
    /\ (mapper = None -> nodes = slice)
    /\ conn = make_connection win args nodes.
Proof.
  unfold connectionFromMongooseQuery. cbn zeta. intros Hrun.
  apply run_bind_inv in Hrun as (count & w2 & ? & ? & Hcount & Hrun & ->).
  apply run_trigger_inv in Hcount as [_ ->].
  apply run_bind_inv in Hrun as ([] & w3 & ? & ? & Hskip & Hrun & ->).
  apply run_trigger_inv in Hskip as [_ ->].
  apply run_bind_inv in Hrun as ([] & w4 & ? & ? & Hlimit & Hrun & ->).
  apply run_trigger_inv in Hlimit as [_ ->].
  apply run_bind_inv in Hrun as (slice & w5 & tf & ? & Hfetch & Hrun & ->).
  apply run_bind_inv in Hrun as (nodes & w6 & tm & ? & Hmap & Hret & ->).
  apply run_Ret_inv in Hret as (-> & _ & ->).
  apply run_fetch_inv in Hfetch as [-> Hslice].
  apply run_mapper_inv in Hmap as (-> & Hlen & Hnone).
  exists count, slice, nodes. cbn zeta. unfold fetch_and_map_events.
  rewrite app_nil_r. now repeat split.
Qed.

Lemma aggregate_builder_shape aggr args mapper w conn w' tr :
  run h (connectionFromMongooseAggregate aggr args mapper) w = (conn, w', tr) ->
  exists (mongooseAggr countAggr : ref) (countArr : list Z) (slice nodes : list V),
    let win := MongooseAggregate_window (Aggregate_count countArr) args in
    tr = Event (Aggregate aggr) mongooseAggr
         :: Event (Aggregate aggr) countAggr
         :: Event (Group countAggr) countArr
         :: Event (Skip mongooseAggr (skip win)) tt
         :: Event (Limit mongooseAggr (limit win)) tt
         :: fetch_and_map_events (Event (Exec mongooseAggr) slice) (limit win)
              mapper slice nodes
    /\ (limit win = 0 -> slice = [])
    /\ length nodes = length slice
    /\ (mapper = None -> nodes = slice)
    /\ conn = make_connection win args nodes.
Proof.
  unfold connectionFromMongooseAggregate, cloneAggregation. intros Hrun.
  apply run_bind_inv in Hrun as (mAggr & w1 & ? & ? & Hclone & Hrun & ->).
  apply run_trigger_inv in Hclone as [_ ->].
  apply run_bind_inv in Hrun as (cAggr & w1' & ? & ? & Hclone & Hrun & ->).
  apply run_trigger_inv in Hclone as [_ ->].
  apply run_bind_inv in Hrun as (countArr & w2 & ? & ? & Hcount & Hrun & ->).
  apply run_trigger_inv in Hcount as [_ ->].
  cbn zeta in Hrun. fold (Aggregate_count countArr) in Hrun.
  apply run_bind_inv in Hrun as ([] & w3 & ? & ? & Hskip & Hrun & ->).
  apply run_trigger_inv in Hskip as [_ ->].
  apply run_bind_inv in Hrun as ([] & w4 & ? & ? & Hlimit & Hrun & ->).
  apply run_trigger_inv in Hlimit as [_ ->].
  apply run_bind_inv in Hrun as (slice & w5 & tf & ? & Hfetch & Hrun & ->).
  apply run_bind_inv in Hrun as (nodes & w6 & tm & ? & Hmap & Hret & ->).
  apply run_Ret_inv in Hret as (-> & _ & ->).
  apply run_fetch_inv in Hfetch as [-> Hslice].
  apply run_mapper_inv in Hmap as (-> & Hlen & Hnone).
  exists mAggr, cAggr, countArr, slice, nodes. cbn zeta. unfold fetch_and_map_events.
  rewrite app_nil_r. now repeat split.
Qed.

End Shapes.

(** ** Further properties of the codec *)

Module CodecFacts.
Import Js.

Lemma list_ind4 {A : Type} (P : list A -> Prop) :
  P [] -> (forall a, P [a]) -> (forall a b, P [a; b]) -> (forall a b c, P [a; b; c]) ->
  (forall a b c d l, P l -> P (a :: b :: c :: d :: l)) ->
  forall l, P l.
Proof.
  intros H0 H1 H2 H3 H4.
  fix IH 1. intros [|a [|b [|c [|e l]]]];
    [exact H0 | apply H1 | apply H2 | apply H3 | apply H4, IH].
Qed.

(** Four characters give at most three bytes. *)
Lemma base64_bytes_length (vs : list N) :
  (4 * length (base64_bytes vs) <= 3 * length vs)%nat.
Proof.
  induction vs as [|a|a b|a b c|a b c e l IH] using list_ind4; cbn [base64_bytes length]; lia.
Qed.

Lemma base64_sextets_length (s : list ascii) :
  (length (base64_sextets s) <= length s)%nat.
Proof.
  induction s as [|c s IH]; cbn [base64_sextets length]; [lia|].
  destruct (unbase64_char c); [cbn [length]; lia|].
  destruct (Ascii.eqb c "="); cbn [length]; lia.
Qed.

Lemma length_list_ascii (s : string) : length (list_ascii_of_string s) = String.length s.
Proof. induction s as [|c s IH]; cbn; [reflexivity | now rewrite IH]. Qed.

Lemma length_string_of_list (l : list ascii) : String.length (string_of_list_ascii l) = length l.
Proof. induction l as [|c l IH]; cbn; [reflexivity | now rewrite IH]. Qed.

Lemma unbase64_length (b64 : string) :
  (4 * String.length (unbase64 b64) <= 3 * String.length b64)%nat.
Proof.
  unfold unbase64, Buffer_toString_ascii, Buffer_from_base64.
  rewrite length_string_of_list, length_map.
  pose proof (base64_bytes_length (base64_sextets (list_ascii_of_string b64))) as H1.
  pose proof (base64_sextets_length (list_ascii_of_string b64)) as H2.
  rewrite length_list_ascii in H2. lia.
Qed.

Lemma substring_short (n : nat) (s : string) :
  (String.length s <= n)%nat -> substring n s = EmptyString.
Proof.
  revert s. induction n as [|n IH]; intros [|c s] Hlen; cbn in *; try reflexivity; try lia.
  apply IH. lia.
Qed.



End CodecFacts.

(** X1. Decoding base64 gives back the bytes that were encoded, for every
    string; [unbase64] then gives back the string itself when all its
    characters are 7-bit. *)
Theorem unbase64_inverts_base64 (str : string) :
  Js.Buffer_from_base64 (base64 str) = Js.Buffer_from_ascii str
  /\ (Js.ascii7 str -> unbase64 (base64 str) = str).
Proof.
  split; [|apply unbase64_base64].
  unfold base64, Js.Buffer_from_base64.
  rewrite list_ascii_of_string_of_list_ascii.
  apply JsFacts.base64_read_write, JsFacts.Buffer_from_ascii_bytes.
Qed.

(** X1 on a cursor text. *)
Lemma unbase64_inverts_base64_witness :
  Js.ascii7 "mongodbconnection:-12"
  /\ Js.Buffer_from_base64 (base64 "mongodbconnection:-12")
     = Js.Buffer_from_ascii "mongodbconnection:-12"
  /\ unbase64 (base64 "mongodbconnection:-12") = "mongodbconnection:-12"%string.
Proof.
  assert (H7 : Js.ascii7 "mongodbconnection:-12") by (repeat constructor).
  split; [exact H7|].
  split; [apply (proj1 (unbase64_inverts_base64 "mongodbconnection:-12"))
         | apply (proj2 (unbase64_inverts_base64 "mongodbconnection:-12") H7)].
Defined.





(** X4. A cursor of at most 25 characters never decodes: its text has at
    most eighteen characters, nothing is left after the prefix is dropped,
    and [getOffsetWithDefault] answers the default. *)
Theorem short_cursor_gives_default (cursor : string) (defaultOffset : Z) :
  (String.length cursor <= 25)%nat ->
  cursorToOffset cursor = None
  /\ getOffsetWithDefault (Some cursor) defaultOffset = defaultOffset.
Proof.
  intros Hlen.
  assert (Hnone : cursorToOffset cursor = None).
  { unfold cursorToOffset. rewrite CodecFacts.substring_short; [reflexivity|].
    pose proof (CodecFacts.unbase64_length cursor) as H.
    change (String.length PREFIX) with 18%nat. lia. }
  split; [exact Hnone|]. unfold getOffsetWithDefault. now rewrite Hnone.
Qed.

(** X4 on the base64 of the prefix alone. *)
Lemma short_cursor_gives_default_witness :
  (String.length "bW9uZ29kYmNvbm5lY3Rpb246" <= 25)%nat
  /\ cursorToOffset "bW9uZ29kYmNvbm5lY3Rpb246" = None
  /\ getOffsetWithDefault (Some "bW9uZ29kYmNvbm5lY3Rpb246"%string) 10 = 10.
Proof.
  assert (H : (String.length "bW9uZ29kYmNvbm5lY3Rpb246" <= 25)%nat) by (vm_compute; lia).
  split; [exact H | apply (short_cursor_gives_default "bW9uZ29kYmNvbm5lY3Rpb246" 10 H)].
Defined.

(** ** Further properties of the windows *)

Lemma MongoCursor_window_bounds (count : Z) (args : ConnectionArgs) :
  let w := MongoCursor_window count args in
  0 <= startOffset w /\ skip w = startOffset w
  /\ skip w + limit w = endOffset w
  /\ endOffset w <= count /\ limit w <= count
  /\ (first args <> Undefined -> limit w <= ToNumber (first args))
  /\ (last args <> Undefined -> limit w <= ToNumber (last args)).
Proof.
  destruct args as [a b f l]. unfold MongoCursor_window.
  cbn [startOffset endOffset skip limit first last].
  destruct f, l; cbn [neq_undefined ToNumber]; repeat split; try congruence; lia.
Qed.

(** X5. The window of [connectionFromMongoCursor] never starts before the
    first item nor ends after the last one: the clamp of the skip leaves
    [startOffset] as it is, skip plus limit is [endOffset], which is at
    most the count, and the limit is at most [first] and at most [last]
    when these are given. *)
Theorem cursor_window_bounds (count : Z) (args : ConnectionArgs) :
  let w := MongoCursor_window count args in
  0 <= startOffset w /\ skip w = startOffset w
  /\ skip w + limit w = endOffset w
  /\ endOffset w <= count /\ limit w <= count
  /\ (first args <> Undefined -> limit w <= ToNumber (first args))
  /\ (last args <> Undefined -> limit w <= ToNumber (last args)).
Proof. exact (MongoCursor_window_bounds count args). Qed.

(** X5 after the cursor of offset 2, with [first = 3]. *)
Lemma cursor_window_bounds_witness :
  let w := MongoCursor_window 10 after_2_first_3 in
  first after_2_first_3 <> Undefined
  /\ 0 <= startOffset w /\ skip w = startOffset w
  /\ skip w + limit w = endOffset w
  /\ endOffset w <= 10 /\ limit w <= 10
  /\ limit w <= ToNumber (first after_2_first_3).
Proof.
  cbn zeta.
  assert (H : first after_2_first_3 <> Undefined) by discriminate.
  destruct (cursor_window_bounds 10 after_2_first_3) as (H1 & H2 & H3 & H4 & H5 & H6 & _).
  split; [exact H|]. split; [exact H1|]. split; [exact H2|]. split; [exact H3|].
  split; [exact H4|]. split; [exact H5 | exact (H6 H)].
Defined.



(** X7. In [connectionFromMongooseQuery] and
    [connectionFromMongooseAggregate] a [last] never narrows the window:
    the window ends where it ends without [last], starts no later, and its
    limit is the larger of [last] and the limit without [last]. *)
Theorem query_window_last_widens (count : Z) (args : ConnectionArgs) :
  let w := MongooseQuery_window count args in
  let w0 := MongooseQuery_window count
              {| after := after args; before := before args;
                 first := first args; last := Undefined |} in
  last args <> Undefined ->
  MongooseAggregate_window count args = w
  /\ startOffset w <= startOffset w0 /\ endOffset w = endOffset w0
  /\ limit w = Z.max (limit w0) (ToNumber (last args)).
Proof.
  destruct args as [a b f l]. unfold MongooseQuery_window.
  cbn [startOffset endOffset limit first last after before].
  intros Hl. split; [reflexivity|].
  destruct l; [congruence | ..]; cbn [neq_undefined ToNumber];
    destruct (neq_undefined f); lia.
Qed.

(** X7 on ten items with [last = 3]. *)
Lemma query_window_last_widens_witness :
  let w := MongooseQuery_window 10 last_3 in
  let w0 := MongooseQuery_window 10
              {| after := after last_3; before := before last_3;
                 first := first last_3; last := Undefined |} in
  last last_3 <> Undefined
  /\ MongooseAggregate_window 10 last_3 = w
  /\ startOffset w <= startOffset w0 /\ endOffset w = endOffset w0
  /\ limit w = Z.max (limit w0) (ToNumber (last last_3)).
Proof.
  cbn zeta.
  assert (H : last last_3 <> Undefined) by discriminate.
  split; [exact H | apply (query_window_last_widens 10 last_3 H)].
Defined.

(** X18. In [connectionFromMongoCursor], [first] and then [last] compose
    as two cuts of the items between [after] and [before]: [first] keeps
    the leading ones, [last] the trailing ones of what [first] kept, and
    the limit is the smallest of the number of these items, [first] and
    [last]. *)
Theorem cursor_window_composes (count : Z) (a b : option string) (f l : Z) :
  let w0 := MongoCursor_window count
              {| after := a; before := b; first := Undefined; last := Undefined |} in
  let w1 := MongoCursor_window count
              {| after := a; before := b; first := Number f; last := Undefined |} in
  let w := MongoCursor_window count
             {| after := a; before := b; first := Number f; last := Number l |} in
  startOffset w1 = startOffset w0
  /\ limit w1 = Z.min (limit w0) f
  /\ endOffset w = endOffset w1
  /\ limit w = Z.min (limit w1) l
  /\ limit w = Z.min (Z.min (limit w0) f) l.
Proof.
  unfold MongoCursor_window.
  cbn [startOffset endOffset limit neq_undefined ToNumber]. lia.
Qed.


(** ** Further properties of the builders *)

Section ConnectionFacts.

Context {V F : Type}.

Lemma make_edges_lookup (s : Z) (nodes : list V) (i : nat) :
  make_edges s nodes !! i
  = (fun y => {| cursor := offsetToCursor (s + Z.of_nat i); node := y |}) <$> nodes !! i.
Proof. unfold make_edges. now rewrite list_lookup_imap. Qed.

Lemma make_edges_length (s : Z) (nodes : list V) :
  length (make_edges s nodes) = length nodes.
Proof. unfold make_edges. apply length_imap. Qed.

Lemma make_edges_decode (s : Z) (nodes : list V) (i : nat) (e : Edge V) :
  make_edges s nodes !! i = Some e -> cursorToOffset (cursor e) = Some (s + Z.of_nat i).
Proof.
  rewrite make_edges_lookup. destruct (nodes !! i) as [y|]; [|discriminate].
  intros [= <-]. apply cursorToOffset_offsetToCursor.
Qed.

Lemma make_connection_cursors (w : Window) (args : ConnectionArgs) (nodes : list V) :
  let c := make_connection w args nodes in
  (nodes = [] -> startCursor (pageInfo c) = None /\ endCursor (pageInfo c) = None)
  /\ (nodes <> [] ->
      startCursor (pageInfo c) = Some (offsetToCursor (startOffset w))
      /\ endCursor (pageInfo c)
         = Some (offsetToCursor (startOffset w + Z.of_nat (length nodes) - 1))).
Proof.
  cbn zeta. unfold make_connection. cbn [pageInfo startCursor endCursor]. split.
  - now intros ->.
  - intros Hne. split.
    + destruct nodes as [|y nodes]; [contradiction|].
      cbn [make_edges imap head fmap option_fmap option_map cursor Z.of_nat].
      now rewrite Z.add_0_r.
    + rewrite last_lookup, make_edges_length, make_edges_lookup.
      destruct nodes as [|y nodes]; [contradiction|]. cbn [length Nat.pred].
      destruct (lookup_lt_is_Some_2 (y :: nodes) (length nodes)) as [y' Hy']; [cbn; lia|].
      rewrite Hy'. cbn [fmap option_fmap option_map cursor]. do 2 f_equal. lia.
Qed.

End ConnectionFacts.

Section RunExtras.

Context {V F W : Type} (h : handler V F W).

(** X8. Every run of [connectionFromMongooseQuery] does, in this order and
    all on the query it was passed: count, skip, limit, then find unless
    the limit is 0, then one mapper call per found record.  With a limit of
    0 there are no edges; otherwise edge [i] carries what the mapper
    answered for record [i] (the record itself without a mapper) and the
    cursor of [startOffset + i]. *)
Theorem query_builder_run
    (query : ref) (args : ConnectionArgs) (mapper : option F)
    (w : W) (conn : Connection V) (w' : W) (tr : list (event V F)) :
  run h (connectionFromMongooseQuery query args mapper) w = (conn, w', tr) ->
  exists (count : Z) (slice nodes : list V),
    let win := MongooseQuery_window count args in
    tr = Event (Count query) count
         :: Event (Skip query (skip win)) tt
         :: Event (Limit query (limit win)) tt
         :: fetch_and_map_events (Event (Find query) slice) (limit win) mapper slice nodes
    /\ (limit win = 0 -> slice = [] /\ edges conn = [])
    /\ length nodes = length slice
    /\ (mapper = None -> nodes = slice)
    /\ length (edges conn) = length slice
    /\ (forall i y, nodes !! i = Some y ->
          edges conn !! i
          = Some {| cursor := offsetToCursor (startOffset win + Z.of_nat i);
                    node := y |}).
Proof.
  intros Hrun.
  apply query_builder_shape in Hrun
    as (count & slice & nodes & Htr & Hempty & Hlen & Hnone & ->).
  exists count, slice, nodes. cbn zeta. cbn [make_connection edges].
  split; [exact Htr|]. split; [|split; [exact Hlen|split; [exact Hnone|split]]].
  - intros H0. specialize (Hempty H0). subst slice.
    destruct nodes; [now split | discriminate].
  - now rewrite make_edges_length.
  - intros i y Hy. now rewrite make_edges_lookup, Hy.
Qed.

(** X9. Every run of [connectionFromMongooseAggregate] makes two new
    aggregations from the one it was passed, groups the second to count,
    takes the count of the first row (0 without a row), gives skip and
    limit to the first and executes it unless the limit is 0, then calls
    the mapper once per record; the edges are as for the other builders. *)
Theorem aggregate_builder_run
    (aggr : ref) (args : ConnectionArgs) (mapper : option F)
    (w : W) (conn : Connection V) (w' : W) (tr : list (event V F)) :
  run h (connectionFromMongooseAggregate aggr args mapper) w = (conn, w', tr) ->
  exists (mongooseAggr countAggr : ref) (countArr : list Z) (slice nodes : list V),
    let count := match countArr with c :: _ => c | [] => 0 end in
    let win := MongooseAggregate_window count args in
    tr = Event (Aggregate aggr) mongooseAggr
         :: Event (Aggregate aggr) countAggr
         :: Event (Group countAggr) countArr
         :: Event (Skip mongooseAggr (skip win)) tt
         :: Event (Limit mongooseAggr (limit win)) tt
         :: fetch_and_map_events (Event (Exec mongooseAggr) slice) (limit win)
              mapper slice nodes
    /\ (limit win = 0 -> slice = [] /\ edges conn = [])
    /\ length nodes = length slice
    /\ (mapper = None -> nodes = slice)
    /\ length (edges conn) = length slice
    /\ (forall i y, nodes !! i = Some y ->
          edges conn !! i
          = Some {| cursor := offsetToCursor (startOffset win + Z.of_nat i);
                    node := y |}).
Proof.
  intros Hrun.
  apply aggregate_builder_shape in Hrun
    as (mAggr & cAggr & countArr & slice & nodes & Htr & Hempty & Hlen & Hnone & ->).
  exists mAggr, cAggr, countArr, slice, nodes. cbn zeta.
  assert (Hcount : Aggregate_count countArr = match countArr with c :: _ => c | [] => 0 end).
  { destruct countArr as [|c ?]; [reflexivity|]. cbn.
    destruct (Z.eqb_spec c 0); congruence. }
  rewrite Hcount in *. cbn [make_connection edges].
  split; [exact Htr|]. split; [|split; [exact Hlen|split; [exact Hnone|split]]].
  - intros H0. specialize (Hempty H0). subst slice.
    destruct nodes; [now split | discriminate].
  - now rewrite make_edges_length.
  - intros i y Hy. now rewrite make_edges_lookup, Hy.
Qed.

(** X10. In a connection of [connectionFromMongoCursor] the cursor of edge
    [i] decodes to the skip that the source was given plus [i]: the
    position of the record in the whole collection. *)
Theorem edge_cursors_are_positions
    (inMongoCursor : ref) (args : ConnectionArgs) (mapper : option F)
    (w : W) (conn : Connection V) (w' : W) (tr : list (event V F)) :
  run h (connectionFromMongoCursor inMongoCursor args mapper) w = (conn, w', tr) ->
  exists (cur : ref) (skipped : Z),
    tr !! 2%nat = Some (Event (Skip cur skipped) tt)
    /\ 0 <= skipped
    /\ forall i e, edges conn !! i = Some e ->
         cursorToOffset (cursor e) = Some (skipped + Z.of_nat i).
Proof.
  intros Hrun.
  apply cursor_builder_shape in Hrun
    as (cur & count & slice & nodes & Htr & _ & _ & _ & ->).
  destruct (MongoCursor_window_bounds count args) as (H0 & Hskip & _).
  exists cur, (skip (MongoCursor_window count args)).
  split; [now rewrite Htr|]. split; [lia|].
  intros i e He. cbn [make_connection edges] in He.
  rewrite Hskip. now apply make_edges_decode in He.
Qed.

(** X11. For each of the three builders the cursors of the edges decode to
    consecutive offsets; without edges both page cursors are [null], and
    with edges [startCursor] is the cursor of the first edge and
    [endCursor] the cursor of the last one. *)
Theorem page_cursors
    (p : prog V F (Connection V))
    (w : W) (conn : Connection V) (w' : W) (tr : list (event V F)) :
  (exists src args mapper,
     p = connectionFromMongoCursor src args mapper
     \/ p = connectionFromMongooseQuery src args mapper
     \/ p = connectionFromMongooseAggregate src args mapper) ->
  run h p w = (conn, w', tr) ->
  exists s : Z,
    (forall i e, edges conn !! i = Some e ->
       cursorToOffset (cursor e) = Some (s + Z.of_nat i))
    /\ (edges conn = [] ->
        startCursor (pageInfo conn) = None /\ endCursor (pageInfo conn) = None)
    /\ (edges conn <> [] ->
        startCursor (pageInfo conn) = Some (offsetToCursor s)
        /\ endCursor (pageInfo conn)
           = Some (offsetToCursor (s + Z.of_nat (length (edges conn)) - 1))).
Proof.
  intros (src & args & mapper & Hp) Hrun.
  assert (Hconn : exists win nodes, conn = make_connection win args nodes).
  { destruct Hp as [-> | [-> | ->]].
    - apply cursor_builder_shape in Hrun as (? & ? & ? & nodes & _ & _ & _ & _ & ->). eauto.
    - apply query_builder_shape in Hrun as (? & ? & nodes & _ & _ & _ & _ & ->). eauto.
    - apply aggregate_builder_shape in Hrun
        as (? & ? & ? & ? & nodes & _ & _ & _ & _ & ->). eauto. }
  destruct Hconn as (win & nodes & ->).
  exists (startOffset win).
  destruct (make_connection_cursors win args nodes) as [Hnil Hcons].
  cbn zeta in Hnil, Hcons.
  assert (Hedges : edges (make_connection win args nodes)
                   = make_edges (startOffset win) nodes) by reflexivity.
  rewrite Hedges, make_edges_length.
  split; [intros i e; apply make_edges_decode|]. split.
  - intros He. apply Hnil. destruct nodes; [reflexivity | discriminate].
  - intros He. apply Hcons. intros ->. now apply He.
Qed.

(** X12. In a connection of [connectionFromMongoCursor], without [first]
    [hasNextPage] is [false]; without [last], [hasPreviousPage] is [true]
    exactly when the [after] cursor decodes to an offset below -1.  With
    [first = f] and no [before], [hasNextPage] tells whether items are left
    after the [f] that follow the [after] offset; with [last = l] and no
    [after], [hasPreviousPage] tells whether the window, which ends at
    [endOffset], has more than [l] items before its end. *)
Theorem flags_meaning
    (inMongoCursor : ref) (args : ConnectionArgs) (mapper : option F)
    (w : W) (conn : Connection V) (w' : W) (tr : list (event V F)) :
  run h (connectionFromMongoCursor inMongoCursor args mapper) w = (conn, w', tr) ->
  exists (cur : ref) (count : Z),
    let win := MongoCursor_window count args in
    tr !! 1%nat = Some (Event (Count cur) count)
    /\ (first args = Undefined -> hasNextPage (pageInfo conn) = false)
    /\ (last args = Undefined ->
        hasPreviousPage (pageInfo conn) = (afterOffset win <? -1))
    /\ (forall f, first args = Number f -> before args = None ->
        hasNextPage (pageInfo conn) = (Z.max (-1) (afterOffset win) + 1 + f <? count))
    /\ (forall l, last args = Number l -> after args = None ->
        hasPreviousPage (pageInfo conn) = (l <? endOffset win)).
Proof.
  intros Hrun.
  apply cursor_builder_shape in Hrun
    as (cur & count & slice & nodes & Htr & _ & _ & _ & ->).
  exists cur, count. cbn zeta. split; [now rewrite Htr|].
  cbn [make_connection pageInfo hasNextPage hasPreviousPage].
  destruct args as [a b f l]. cbn [first last after before].
  unfold MongoCursor_window. cbn [startOffset endOffset lowerBound upperBound afterOffset].
  repeat split.
  - intros ->. cbn [neq_null neq_undefined].
    destruct b as [[|c s]|]; cbn [truthy]; rewrite ?getOffsetWithDefault_empty;
      cbn [getOffsetWithDefault]; apply Z.ltb_ge; lia.
  - intros ->. cbn [neq_null neq_undefined].
    destruct a as [[|c s]|]; cbn [truthy]; rewrite ?getOffsetWithDefault_empty;
      cbn [getOffsetWithDefault].
    + reflexivity.
    + destruct (cursorToOffset (String c s)) as [n|]; [|reflexivity].
      destruct (Z.ltb_spec n (-1)), (Z.gtb_spec (Z.max (-1) n + 1) (n + 1)); lia || reflexivity.
    + reflexivity.
  - intros f' -> ->. cbn [neq_null neq_undefined ToNumber truthy getOffsetWithDefault].
    destruct (neq_undefined l);
      match goal with
      | |- (?x <? ?y) = (?u <? ?v) =>
          destruct (Z.ltb_spec x y), (Z.ltb_spec u v); lia || reflexivity
      end.
  - intros l' -> ->. cbn [neq_null neq_undefined ToNumber truthy getOffsetWithDefault].
    destruct (neq_undefined f);
    match goal with
    | |- (?x >? ?y) = (?u <? ?v) =>
        destruct (Z.gtb_spec x y), (Z.ltb_spec u v); lia || reflexivity
    end.
Qed.

End RunExtras.

(** ** Further properties in the heap *)

Section HeapExtras.

Context {V F O : Type} (d : Driver V F O).

Lemma method_inv {X : Type} (r : ref) (m : O -> X * O) (dflt : X)
    (heap : list O) (o : O) (x : X) (heap' : list O) :
  heap !! r = Some o -> method r m dflt heap = (x, heap') ->
  x = (m o).1 /\ heap' = <[r := (m o).2]> heap /\ heap' !! r = Some (m o).2.
Proof.
  intros Hr. unfold method. rewrite Hr. destruct (m o) as [x' o']. intros [= <- <-].
  repeat split. apply list_lookup_insert_eq. now apply lookup_lt_Some in Hr.
Qed.

Lemma run_Array_map_from_heap (f : F) (array : list V) i l heap ys heap' tr :
  run (heap_handler d) (Array_map_from f array i l) heap = (ys, heap', tr) ->
  heap' = heap
  /\ ys = imap (fun j v => drv_call d f v (Z.of_nat (i + j)) array) l.
Proof.
  revert i heap ys heap' tr. induction l as [|v l IH]; intros i heap ys heap' tr Hrun.
  - apply run_Ret_inv in Hrun as (-> & -> & _). now split.
  - cbn [Array_map_from] in Hrun.
    apply run_bind_inv in Hrun as (y & w1 & t1 & t2 & Hcall & Hrun & ->).
    apply run_trigger_inv in Hcall as [Hcall _]. cbn [heap_handler] in Hcall.
    injection Hcall as <- <-.
    apply run_bind_inv in Hrun as (ys' & w2 & t3 & t4 & Hrest & Hret & ->).
    apply run_Ret_inv in Hret as (-> & -> & _).
    apply IH in Hrest as [-> ->]. split; [reflexivity|].
    rewrite imap_cons, Nat.add_0_r. f_equal.
    apply imap_ext. intros j v' _. cbn. now rewrite Nat.add_succ_r.
Qed.

(** The part that the three builders share, on the object at [src]:
    skip, limit, the fetch by [fetch] unless the limit is 0, the mapper. *)
Lemma run_tail_heap
    (src : ref) (fetch : op V F (list V)) (win : Window) (args : ConnectionArgs)
    (mapper : option F) (k : list V -> Connection V)
    (heap : list O) (o1 : O) conn heap' tr :
  heap_handler d _ fetch = method src (drv_fetch d) [] ->
  heap !! src = Some o1 ->
  run (heap_handler d)
    (bind (trigger (Skip src (skip win))) (fun _ =>
     bind (trigger (Limit src (limit win))) (fun _ =>
     bind (if limit win =? 0 then Ret [] else trigger fetch) (fun slice =>
     bind match mapper with
          | Some f => Array_map f slice
          | None => Ret slice
          end (fun slice => Ret (k slice))))))
    heap = (conn, heap', tr) ->
  let o' := drv_limit d (limit win) (drv_skip d (skip win) o1) in
  let slice := if limit win =? 0 then [] else (drv_fetch d o').1 in
  conn = k match mapper with
           | Some f => imap (fun i v => drv_call d f v (Z.of_nat i) slice) slice
           | None => slice
           end
  /\ heap' = <[src := if limit win =? 0 then o' else (drv_fetch d o').2]> heap.
Proof.
  intros Hfetchop Hsrc Hrun.
  apply run_bind_inv in Hrun as ([] & w3 & ? & ? & Hskip & Hrun & ->).
  apply run_trigger_inv in Hskip as [Hskip _]. cbn [heap_handler] in Hskip.
  apply (method_inv _ _ _ _ _ _ _ Hsrc) in Hskip as (_ & Hw3 & Hsrc3). cbn [snd] in *.
  apply run_bind_inv in Hrun as ([] & w4 & ? & ? & Hlimit & Hrun & ->).
  apply run_trigger_inv in Hlimit as [Hlimit _]. cbn [heap_handler] in Hlimit.
  apply (method_inv _ _ _ _ _ _ _ Hsrc3) in Hlimit as (_ & Hw4 & Hsrc4). cbn [snd] in *.
  apply run_bind_inv in Hrun as (slice & w5 & tf & ? & Hfetch & Hrun & ->).
  apply run_bind_inv in Hrun as (nodes & w6 & tm & ? & Hmap & Hret & ->).
  apply run_Ret_inv in Hret as (-> & -> & _).
  cbn zeta.
  assert (Hf : slice = (if limit win =? 0 then []
                        else (drv_fetch d (drv_limit d (limit win)
                                             (drv_skip d (skip win) o1))).1)
               /\ w5 = <[src := if limit win =? 0
                                then drv_limit d (limit win) (drv_skip d (skip win) o1)
                                else (drv_fetch d (drv_limit d (limit win)
                                                     (drv_skip d (skip win) o1))).2]> heap).
  { destruct (limit win =? 0).
    - apply run_Ret_inv in Hfetch as (-> & -> & _). split; [reflexivity|].
      subst w4 w3. now rewrite list_insert_insert_eq.
    - apply run_trigger_inv in Hfetch as [Hfetch _]. rewrite Hfetchop in Hfetch.
      apply (method_inv _ _ _ _ _ _ _ Hsrc4) in Hfetch as (-> & -> & _).
      split; [reflexivity|]. subst w4 w3. now rewrite !list_insert_insert_eq. }
  destruct Hf as [Hslice ->]. rewrite <- Hslice.
  destruct mapper as [f|].
  - apply run_Array_map_from_heap in Hmap as [-> ->]. now split.
  - apply run_Ret_inv in Hmap as (-> & -> & _). now split.
Qed.

Lemma query_builder_heap_run query args mapper heap o conn heap' tr :
  heap !! query = Some o ->
  run (heap_handler d) (connectionFromMongooseQuery query args mapper) heap
  = (conn, heap', tr) ->
  let win := MongooseQuery_window (drv_count d o).1 args in
  let o' := drv_limit d (limit win) (drv_skip d (skip win) (drv_count d o).2) in
  conn = connection_from_object d MongooseQuery_window o args mapper
  /\ heap' = <[query := if limit win =? 0 then o' else (drv_fetch d o').2]> heap.
Proof.
  intros Hq Hrun. unfold connectionFromMongooseQuery in Hrun. cbn zeta in Hrun.
  apply run_bind_inv in Hrun as (count & w2 & ? & ? & Hcount & Hrun & ->).
  apply run_trigger_inv in Hcount as [Hcount _]. cbn [heap_handler] in Hcount.
  apply (method_inv _ _ _ _ _ _ _ Hq) in Hcount as (-> & Hw2 & Hq2).
  apply (run_tail_heap query (Find query) _ args mapper
           (make_connection (MongooseQuery_window (drv_count d o).1 args) args)
           w2 _ _ _ _ eq_refl Hq2) in Hrun.
  cbn zeta in *. destruct Hrun as [-> ->]. split; [reflexivity|].
  subst w2. now rewrite list_insert_insert_eq.
Qed.

Lemma cursor_builder_heap_run inMongoCursor args mapper heap o conn heap' tr :
  heap !! inMongoCursor = Some o ->
  run (heap_handler d) (connectionFromMongoCursor inMongoCursor args mapper) heap
  = (conn, heap', tr) ->
  conn = connection_from_object d MongoCursor_window (drv_clone d o) args mapper
  /\ exists o', heap' = heap ++ [o'].
Proof.
  intros Hsrc Hrun. unfold connectionFromMongoCursor in Hrun.
  apply run_bind_inv in Hrun as (cur & w1 & ? & ? & Hclone & Hrun & ->).
  apply run_trigger_inv in Hclone as [Hclone _]. cbn [heap_handler] in Hclone.
  unfold new_from, alloc in Hclone. rewrite Hsrc in Hclone. injection Hclone as <- <-.
  assert (Hcur : (heap ++ [drv_clone d o]) !! length heap = Some (drv_clone d o))
    by (rewrite lookup_app_r, Nat.sub_diag; [reflexivity | lia]).
  apply run_bind_inv in Hrun as (count & w2 & ? & ? & Hcount & Hrun & ->).
  apply run_trigger_inv in Hcount as [Hcount _]. cbn [heap_handler] in Hcount.
  apply (method_inv _ _ _ _ _ _ _ Hcur) in Hcount as (-> & Hw2 & Hcur2).
  apply (run_tail_heap (length heap) (ToArray (length heap)) _ args mapper
           (make_connection (MongoCursor_window (drv_count d (drv_clone d o)).1 args) args)
           w2 _ _ _ _ eq_refl Hcur2) in Hrun.
  cbn zeta in *. destruct Hrun as [-> ->]. split; [reflexivity|].
  subst w2. rewrite list_insert_insert_eq.
  eexists. rewrite insert_app_r_alt, Nat.sub_diag by lia. reflexivity.
Qed.


(** X14. [connectionFromMongooseAggregate] changes no object of the
    caller either. *)
Theorem aggregate_builder_frame
    (aggr : ref) (args : ConnectionArgs) (mapper : option F)
    (heap : list O) (conn : Connection V) (heap' : list O) (tr : list (event V F)) :
  run (heap_handler d) (connectionFromMongooseAggregate aggr args mapper) heap
  = (conn, heap', tr) ->
  (length heap <= length heap')%nat
  /\ forall r o0, heap !! r = Some o0 -> heap' !! r = Some o0.
Proof.
  intros Hrun.
  pose proof (on_new_objects_frame d _ _
                (connectionFromMongooseAggregate_on_new (length heap) aggr args mapper)
                heap conn heap' tr (Nat.le_refl _) Hrun) as Htake.
  rewrite firstn_all in Htake.
  assert (Hlen : (length heap <= length heap')%nat).
  { rewrite <- Htake at 1. rewrite length_take. lia. }
  split; [exact Hlen|].
  intros r o0 Hr. rewrite <- Htake in Hr. rewrite lookup_take_Some in Hr. tauto.
Qed.

(** X15. [connectionFromMongooseQuery] allocates nothing and changes the
    query it was passed, and only that: after the call the caller's query
    has been counted and carries the skip and the limit of the window (and
    has been fetched from, unless the limit is 0). *)
Theorem query_builder_changes_query
    (query : ref) (args : ConnectionArgs) (mapper : option F)
    (heap : list O) (o : O) (conn : Connection V) (heap' : list O)
    (tr : list (event V F)) :
  heap !! query = Some o ->
  run (heap_handler d) (connectionFromMongooseQuery query args mapper) heap
  = (conn, heap', tr) ->
  let win := MongooseQuery_window (drv_count d o).1 args in
  let o' := drv_limit d (limit win) (drv_skip d (skip win) (drv_count d o).2) in
  length heap' = length heap
  /\ (forall r, r <> query -> heap' !! r = heap !! r)
  /\ heap' !! query = Some (if limit win =? 0 then o' else (drv_fetch d o').2).
Proof.
  intros Hq Hrun.
  destruct (query_builder_heap_run _ _ _ _ _ _ _ _ Hq Hrun) as [_ Hheap].
  cbn zeta in *. rewrite Hheap. split; [apply length_insert|]. split.
  - intros r Hr. now apply list_lookup_insert_ne.
  - apply list_lookup_insert_eq. now apply lookup_lt_Some in Hq.
Qed.


(** X17. When [last] is not given and the duplicate of the source behaves
    as the source itself, [connectionFromMongooseQuery] returns the
    connection that [connectionFromMongoCursor] returns. *)
Theorem query_builder_agrees_without_last
    (src : ref) (args : ConnectionArgs) (mapper : option F)
    (heap : list O) (o : O)
    (conn1 conn2 : Connection V) (heap1 heap2 : list O) (tr1 tr2 : list (event V F)) :
  heap !! src = Some o -> drv_clone d o = o -> last args = Undefined ->
  run (heap_handler d) (connectionFromMongoCursor src args mapper) heap
  = (conn1, heap1, tr1) ->
  run (heap_handler d) (connectionFromMongooseQuery src args mapper) heap
  = (conn2, heap2, tr2) ->
  conn2 = conn1.
Proof.
  intros Hsrc Hclone Hlast Hrun1 Hrun2.
  destruct (cursor_builder_heap_run _ _ _ _ _ _ _ _ Hsrc Hrun1) as [-> _].
  destruct (query_builder_heap_run _ _ _ _ _ _ _ _ Hsrc Hrun2) as [-> _].
  rewrite Hclone. unfold connection_from_object.
  now rewrite (windows_agree_without_last _ args Hlast).
Qed.

End HeapExtras.

(** ** The further properties on ten items *)

(** X8 on ten items with [first = 3] and a mapper that doubles. *)
Lemma query_builder_run_witness :
  let r := run_memory (connectionFromMongooseQuery 0%nat first_3 (Some double)) [ten_items] in
  r = (r.1.1, r.1.2, r.2)
  /\ exists (count : Z) (slice nodes : list Z),
       let win := MongooseQuery_window count first_3 in
       r.2 = Event (Count 0%nat) count
             :: Event (Skip 0%nat (skip win)) tt
             :: Event (Limit 0%nat (limit win)) tt
             :: fetch_and_map_events (Event (Find 0%nat) slice) (limit win)
                  (Some double) slice nodes
       /\ (limit win = 0 -> slice = [] /\ edges r.1.1 = [])
       /\ length nodes = length slice
       /\ (Some double = None -> nodes = slice)
       /\ length (edges r.1.1) = length slice
       /\ (forall i y, nodes !! i = Some y ->
             edges r.1.1 !! i
             = Some {| cursor := offsetToCursor (startOffset win + Z.of_nat i);
                       node := y |}).
Proof.
  intros r. split; [reflexivity|].
  apply (query_builder_run (heap_handler memory_driver) 0%nat first_3 (Some double)
           [ten_items] r.1.1 r.1.2 r.2).
  reflexivity.
Defined.

(** X9 on ten items with [first = 3] and a mapper that doubles. *)
Lemma aggregate_builder_run_witness :
  let r := run_memory (connectionFromMongooseAggregate 0%nat first_3 (Some double))
             [ten_items] in
  r = (r.1.1, r.1.2, r.2)
  /\ exists (mongooseAggr countAggr : ref) (countArr : list Z) (slice nodes : list Z),
       let count := match countArr with c :: _ => c | [] => 0 end in
       let win := MongooseAggregate_window count first_3 in
       r.2 = Event (Aggregate 0%nat) mongooseAggr
             :: Event (Aggregate 0%nat) countAggr
             :: Event (Group countAggr) countArr
             :: Event (Skip mongooseAggr (skip win)) tt
             :: Event (Limit mongooseAggr (limit win)) tt
             :: fetch_and_map_events (Event (Exec mongooseAggr) slice) (limit win)
                  (Some double) slice nodes
       /\ (limit win = 0 -> slice = [] /\ edges r.1.1 = [])
       /\ length nodes = length slice
       /\ (Some double = None -> nodes = slice)
       /\ length (edges r.1.1) = length slice
       /\ (forall i y, nodes !! i = Some y ->
             edges r.1.1 !! i
             = Some {| cursor := offsetToCursor (startOffset win + Z.of_nat i);
                       node := y |}).
Proof.
  intros r. split; [reflexivity|].
  apply (aggregate_builder_run (heap_handler memory_driver) 0%nat first_3 (Some double)
           [ten_items] r.1.1 r.1.2 r.2).
  reflexivity.
Defined.

(** X10 on ten items, after the cursor of offset 2, with [first = 3]. *)
Lemma edge_cursors_are_positions_witness :
  let r := run_memory (connectionFromMongoCursor 0%nat after_2_first_3 None) [ten_items] in
  r = (r.1.1, r.1.2, r.2)
  /\ exists (cur : ref) (skipped : Z),
       r.2 !! 2%nat = Some (Event (Skip cur skipped) tt)
       /\ 0 <= skipped
       /\ forall i e, edges r.1.1 !! i = Some e ->
            cursorToOffset (cursor e) = Some (skipped + Z.of_nat i).
Proof.
  intros r. split; [reflexivity|].
  apply (edge_cursors_are_positions (heap_handler memory_driver) 0%nat after_2_first_3 None
           [ten_items] r.1.1 r.1.2 r.2).
  reflexivity.
Defined.

(** X11 on the query builder, ten items and [last = 3]. *)
Lemma page_cursors_witness :
  let p := connectionFromMongooseQuery (V := Z) (F := Z -> Z) 0%nat last_3 None in
  let r := run_memory p [ten_items] in
  (exists src args mapper,
     p = connectionFromMongoCursor src args mapper
     \/ p = connectionFromMongooseQuery src args mapper
     \/ p = connectionFromMongooseAggregate src args mapper)
  /\ r = (r.1.1, r.1.2, r.2)
  /\ exists s : Z,
       (forall i e, edges r.1.1 !! i = Some e ->
          cursorToOffset (cursor e) = Some (s + Z.of_nat i))
       /\ (edges r.1.1 = [] ->
           startCursor (pageInfo r.1.1) = None /\ endCursor (pageInfo r.1.1) = None)
       /\ (edges r.1.1 <> [] ->
           startCursor (pageInfo r.1.1) = Some (offsetToCursor s)
           /\ endCursor (pageInfo r.1.1)
              = Some (offsetToCursor (s + Z.of_nat (length (edges r.1.1)) - 1))).
Proof.
  intros p r.
  assert (Hp : exists src args mapper,
             p = connectionFromMongoCursor src args mapper
             \/ p = connectionFromMongooseQuery src args mapper
             \/ p = connectionFromMongooseAggregate src args mapper).
  { exists 0%nat, last_3, None. right. left. reflexivity. }
  split; [exact Hp|]. split; [reflexivity|].
  apply (page_cursors (heap_handler memory_driver) p [ten_items] r.1.1 r.1.2 r.2 Hp).
  reflexivity.
Defined.

(** X12 on ten items with [first = 3]. *)
Lemma flags_meaning_witness :
  let r := run_memory (connectionFromMongoCursor 0%nat first_3 None) [ten_items] in
  r = (r.1.1, r.1.2, r.2)
  /\ exists (cur : ref) (count : Z),
       let win := MongoCursor_window count first_3 in
       r.2 !! 1%nat = Some (Event (Count cur) count)
       /\ (first first_3 = Undefined -> hasNextPage (pageInfo r.1.1) = false)
       /\ (last first_3 = Undefined ->
           hasPreviousPage (pageInfo r.1.1) = (afterOffset win <? -1))
       /\ (forall f, first first_3 = Number f -> before first_3 = None ->
           hasNextPage (pageInfo r.1.1)
           = (Z.max (-1) (afterOffset win) + 1 + f <? count))
       /\ (forall l, last first_3 = Number l -> after first_3 = None ->
           hasPreviousPage (pageInfo r.1.1) = (l <? endOffset win)).
Proof.
  intros r. split; [reflexivity|].
  apply (flags_meaning (heap_handler memory_driver) 0%nat first_3 None
           [ten_items] r.1.1 r.1.2 r.2).
  reflexivity.
Defined.


(** X14 on ten items with [first = 3]. *)
Lemma aggregate_builder_frame_witness :
  let r := run_memory (connectionFromMongooseAggregate 0%nat first_3 None) [ten_items] in
  r = (r.1.1, r.1.2, r.2)
  /\ (length [ten_items] <= length r.1.2)%nat
  /\ forall r0 o0, [ten_items] !! r0 = Some o0 -> r.1.2 !! r0 = Some o0.
Proof.
  intros r. split; [reflexivity|].
  apply (aggregate_builder_frame memory_driver 0%nat first_3 None [ten_items]
           r.1.1 r.1.2 r.2); reflexivity.
Defined.

(** X15 on ten items with [first = 3]. *)
Lemma query_builder_changes_query_witness :
  let r := run_memory (connectionFromMongooseQuery 0%nat first_3 None) [ten_items] in
  let win := MongooseQuery_window (drv_count memory_driver ten_items).1 first_3 in
  let o' := drv_limit memory_driver (limit win)
              (drv_skip memory_driver (skip win) (drv_count memory_driver ten_items).2) in
  [ten_items] !! 0%nat = Some ten_items
  /\ r = (r.1.1, r.1.2, r.2)
  /\ length r.1.2 = length [ten_items]
  /\ (forall r0, r0 <> 0%nat -> r.1.2 !! r0 = [ten_items] !! r0)
  /\ r.1.2 !! 0%nat
     = Some (if limit win =? 0 then o' else (drv_fetch memory_driver o').2).
Proof.
  intros r. cbn zeta. split; [reflexivity|]. split; [reflexivity|].
  apply (query_builder_changes_query memory_driver 0%nat first_3 None [ten_items] ten_items
           r.1.1 r.1.2 r.2); reflexivity.
Defined.


(** X17 on ten items with [first = 3]. *)
Lemma query_builder_agrees_without_last_witness :
  let r1 := run_memory (connectionFromMongoCursor 0%nat first_3 None) [ten_items] in
  let r2 := run_memory (connectionFromMongooseQuery 0%nat first_3 None) [ten_items] in
  [ten_items] !! 0%nat = Some ten_items
  /\ drv_clone memory_driver ten_items = ten_items
  /\ last first_3 = Undefined
  /\ r1 = (r1.1.1, r1.1.2, r1.2) /\ r2 = (r2.1.1, r2.1.2, r2.2)
  /\ r2.1.1 = r1.1.1.
Proof.
  intros r1 r2. split; [reflexivity|]. split; [reflexivity|]. split; [reflexivity|].
  split; [reflexivity|]. split; [reflexivity|].
  apply (query_builder_agrees_without_last memory_driver 0%nat first_3 None
           [ten_items] ten_items r1.1.1 r2.1.1 r1.1.2 r2.1.2 r1.2 r2.2); reflexivity.
Defined.
